(** * wyze-stream-analysis: connection manager, detection scheduler,
      overlay renderer and count aggregator of the React front end

    Shallow embedding of the stateful parts of
    - [App.tsx]            (count history, detection toggle, tab change),
    - [PeopleDetection.tsx] (model loading, detection loop, overlay),
    - [VideoPlayer.tsx]     (HLS error handler, time sync),
    - [PeopleDetectionGraph.tsx], [AddStreamModal.tsx],
      [AnalysisHistory.tsx] and [services/api.ts] (chart, form, display
      and address helpers).

    React state is a record, every handler is a function on it.  A value
    that a handler reads from its closure ([isPeopleDetectionEnabled],
    [showOverlay]) or from the browser ([Date.now()], the video element,
    the outcome of an awaited promise) is an explicit argument.
    [Date.now()] and sample counts are integers ([Z]); detection scores
    and canvas coordinates are JavaScript numbers, taken here as
    rationals ([Q]); the positions the time sync of [VideoPlayer.tsx]
    compares are IEEE 754 doubles ([float]). *)

From Stdlib Require Import ZArith QArith Qround Qabs Lia.
From Stdlib Require Floats.
From stdpp Require Import base tactics option list strings pretty gmap.

Local Open Scope Z_scope.

(** ** JavaScript array helpers *)

(** [arr.slice(-n)] for [n > 0]: the last [n] elements (all of them when
    the array is shorter). *)
Definition slice_last {A} (n : nat) (arr : list A) : list A :=
  drop (length arr - n) arr.

(** [arr.slice(0, -1)]: everything but the last element. *)
Definition slice_but_last {A} (arr : list A) : list A :=
  take (length arr - 1) arr.

(** ** App.tsx: the count aggregator *)

Module App.

Record PeopleDataPoint := mkPoint { timestamp : Z; count : Z }.

Record AppState := mkApp {
  currentTime : Q;
  activeVideoId : string;
  peopleCount : Z;
  isPeopleDetectionEnabled : bool;
  peopleCountHistory : list PeopleDataPoint;
  detectionSessionId : string
}.

(** The [useState] initial values. *)
Definition initialState : AppState :=
  {| currentTime := 0%Q;
     activeVideoId := "football";
     peopleCount := 0;
     isPeopleDetectionEnabled := false;
     peopleCountHistory := [];
     detectionSessionId := "initial" |}.

(** [Math.abs(now - lastPoint.timestamp) < 50] *)
Definition within_jitter (now : Z) (lastPoint : PeopleDataPoint) : bool :=
  Z.abs (now - timestamp lastPoint) <? 50.

(** The tail of the updater: append, then keep the last 300 points. *)
Definition append_capped (prev : list PeopleDataPoint) (newPoint : PeopleDataPoint)
    : list PeopleDataPoint :=
  let history := prev ++ [newPoint] in
  if (300 <? length history)%nat then slice_last 300 history else history.

(** The functional update passed to [setPeopleCountHistory] inside
    [handlePeopleCountChange]; [now] is the value of [Date.now()]. *)
Definition updateHistory (now cnt : Z) (prev : list PeopleDataPoint)
    : list PeopleDataPoint :=
  let newPoint := {| timestamp := now; count := cnt |} in
  match last prev with
  | Some lastPoint =>
      if within_jitter now lastPoint
      then slice_but_last prev ++ [newPoint]
      else append_capped prev newPoint
  | None => append_capped prev newPoint
  end.

(** [handlePeopleCountChange]: a [useCallback] over
    [isPeopleDetectionEnabled]; [enabled] is the value of that flag in the
    render that created the callback. *)
Definition handlePeopleCountChange (enabled : bool) (now cnt : Z) (st : AppState)
    : AppState :=
  {| currentTime := currentTime st;
     activeVideoId := activeVideoId st;
     peopleCount := cnt;
     isPeopleDetectionEnabled := isPeopleDetectionEnabled st;
     peopleCountHistory :=
       if enabled then updateHistory now cnt (peopleCountHistory st)
       else peopleCountHistory st;
     detectionSessionId := detectionSessionId st |}.

(** [handleTabChange] *)
Definition handleTabChange (id : string) (st : AppState) : AppState :=
  {| currentTime := 0%Q;
     activeVideoId := id;
     peopleCount := 0;
     isPeopleDetectionEnabled := false;
     peopleCountHistory := [];
     detectionSessionId := detectionSessionId st |}.

(** ['session_' + Date.now()] *)
Definition sessionName (now : Z) : string := "session_" +:+ pretty now.

(** [togglePeopleDetection] *)
Definition togglePeopleDetection (now : Z) (st : AppState) : AppState :=
  let newValue := negb (isPeopleDetectionEnabled st) in
  {| currentTime := currentTime st;
     activeVideoId := activeVideoId st;
     peopleCount := peopleCount st;
     isPeopleDetectionEnabled := newValue;
     peopleCountHistory := if newValue then [] else peopleCountHistory st;
     detectionSessionId :=
       if newValue then sessionName now else detectionSessionId st |}.

(** What can happen to the App state.  The caller of
    [handlePeopleCountChange] is the detection loop, which keeps calling
    the callback it was given when its effect ran: [captured] is the
    [isPeopleDetectionEnabled] of the render that created that callback,
    whatever the flag is by the time of the call. *)
Inductive Event :=
  | CountChange (captured : bool) (now cnt : Z)
  | ToggleDetection (now : Z)
  | TabChange (id : string).

Definition step (st : AppState) (ev : Event) : AppState :=
  match ev with
  | CountChange captured now cnt => handlePeopleCountChange captured now cnt st
  | ToggleDetection now => togglePeopleDetection now st
  | TabChange id => handleTabChange id st
  end.

Definition run (evs : list Event) (st : AppState) : AppState :=
  foldl step st evs.

(** The clock readings an event sequence carries, in order. *)
Definition clock_of (ev : Event) : option Z :=
  match ev with
  | CountChange _ now _ => Some now
  | ToggleDetection now => Some now
  | TabChange _ => None
  end.

Definition clocks (evs : list Event) : list Z := omap clock_of evs.

(** Non-decreasing readings, none before [t0]. *)
Fixpoint monotone_from (t0 : Z) (ts : list Z) : Prop :=
  match ts with
  | [] => True
  | t :: ts' => t0 <= t /\ monotone_from t ts'
  end.

(** Consecutive stored samples are at least 50 apart. *)
Fixpoint spaced (h : list PeopleDataPoint) : Prop :=
  match h with
  | [] => True
  | p :: h' =>
      match h' with
      | [] => True
      | q :: _ => timestamp p + 50 <= timestamp q
      end /\ spaced h'
  end.

(** Timestamps in non-decreasing order. *)
Fixpoint sorted_ts (h : list PeopleDataPoint) : Prop :=
  match h with
  | [] => True
  | p :: h' =>
      match h' with
      | [] => True
      | q :: _ => timestamp p <= timestamp q
      end /\ sorted_ts h'
  end.

(** The series is spaced and its last sample is not younger than [t]. *)
Definition settled_by (t : Z) (h : list PeopleDataPoint) : Prop :=
  spaced h /\ (forall p, last h = Some p -> timestamp p <= t).

(** Count events for a list of (captured flag, clock reading, count)
    triples. *)
Definition countEvents (samples : list (bool * Z * Z)) : list Event :=
  map (fun s => CountChange s.1.1 s.1.2 s.2) samples.

(** Every count event of the sequence comes through a callback created
    while detection was enabled. *)
Definition capturedOn (evs : list Event) : Prop :=
  Forall (fun ev => match ev with
                    | CountChange captured _ _ => captured = true
                    | _ => True
                    end) evs.

End App.

(** ** PeopleDetection.tsx: model loading, overlay, detection loop *)

Module PeopleDetection.

(** A raw prediction of the COCO-SSD model. *)
Record Detection := mkDetection {
  bbox : Q * Q * Q * Q;      (* [x, y, width, height] *)
  class : string;
  score : Q
}.

(** The video element behind [videoRef.current]. *)
Record Video := mkVideo {
  readyState : Z;
  paused : bool;
  ended : bool;
  currentTime : Q;
  videoWidth : Z;
  videoHeight : Z
}.

(** Calls on the 2D context that leave a mark.  The stroke and fill
    styles, line width and font are constants of the source and are not
    recorded. *)
Inductive DrawOp :=
  | StrokeRect (x y w h : Q)
  | FillCircle (cx cy r : Q)           (* beginPath; arc(cx, cy, 5, 0, 2π); fill *)
  | FillText (text : string) (x y : Q).

(** The canvas behind [canvasRef.current]: its size, whether
    [getContext('2d')] yields a context, and what is painted on it. *)
Record Canvas := mkCanvas {
  width : Z;
  height : Z;
  context2d : bool;
  painted : list DrawOp
}.

(** [ctx.clearRect(0, 0, canvas.width, canvas.height)] *)
Definition clearRect (c : Canvas) : Canvas :=
  {| width := width c; height := height c; context2d := context2d c;
     painted := [] |}.

Definition paint (ops : list DrawOp) (c : Canvas) : Canvas :=
  {| width := width c; height := height c; context2d := context2d c;
     painted := painted c ++ ops |}.

(** [Math.round(x)] *)
Definition Math_round (x : Q) : Z := Qfloor (x + (1 # 2)).

(** The body of the [forEach] in [drawDetections]. *)
Definition drawOne (scaleX scaleY : Q) (detection : Detection) : list DrawOp :=
  let '(x, y, w, h) := bbox detection in
  let scaledX := (x * scaleX)%Q in
  let scaledY := (y * scaleY)%Q in
  let scaledWidth := (w * scaleX)%Q in
  let scaledHeight := (h * scaleY)%Q in
  let centerX := (scaledX + scaledWidth / 2)%Q in
  let centerY := (scaledY + scaledHeight / 2)%Q in
  let pct := Math_round (score detection * 100)%Q in
  [ StrokeRect scaledX scaledY scaledWidth scaledHeight;
    FillCircle centerX centerY 5;
    FillText ("Person " +:+ pretty pct +:+ "%") scaledX (scaledY - 5)%Q ].

(** A call with its numbers in lowest terms, to compare painted calls. *)
Definition reduced (op : DrawOp) : DrawOp :=
  match op with
  | StrokeRect x y w h => StrokeRect (Qred x) (Qred y) (Qred w) (Qred h)
  | FillCircle cx cy r => FillCircle (Qred cx) (Qred cy) (Qred r)
  | FillText text x y => FillText text (Qred x) (Qred y)
  end.

(** [drawDetections], with the [showOverlay] of the render that created
    it; returns the new [canvasRef.current]. *)
Definition drawDetections (showOverlay : bool) (video : option Video)
    (detections : list Detection) (canvasRef : option Canvas) : option Canvas :=
  match canvasRef, video with
  | Some canvas, Some video =>
      if negb (context2d canvas) then Some canvas
      else
        let cleared := clearRect canvas in
        if negb showOverlay then Some cleared
        else
          let scaleX := (inject_Z (width canvas) / inject_Z (videoWidth video))%Q in
          let scaleY := (inject_Z (height canvas) / inject_Z (videoHeight video))%Q in
          Some (paint (flat_map (drawOne scaleX scaleY) detections) cleared)
  | _, _ => canvasRef
  end.

(** The effect over [[isEnabled, showOverlay, detections]]. *)
Definition overlayEffect (isEnabled showOverlay : bool) (video : option Video)
    (detections : list Detection) (canvasRef : option Canvas) : option Canvas :=
  match canvasRef with
  | Some canvas =>
      if negb isEnabled || negb showOverlay then
        if context2d canvas then Some (clearRect canvas) else Some canvas
      else if isEnabled && showOverlay && (0 <? length detections)%nat then
        drawDetections showOverlay video detections canvasRef
      else canvasRef
  | None => None
  end.

(** [pred.class === 'person' && pred.score > 0.5] *)
Definition isPerson (pred : Detection) : bool :=
  bool_decide (class pred = "person") && negb (Qle_bool (score pred) (1 # 2)).

(** *** Model loading *)

Inductive Backend := WebGL | CPU.

Inductive TfCall :=
  | SetBackend (b : Backend)
  | TfReady
  | CocoSsdLoad.

(** How an awaited promise settles; a rejection carries [error?.message]. *)
Inductive Settled (A : Type) :=
  | Resolved (a : A)
  | Rejected (message : option string).
Arguments Resolved {A} a.
Arguments Rejected {A} message.

(** A loaded model is known by a number. *)
Definition ObjectDetection := nat.

(** The places where [initTensorFlowAndLoadModel] reads [isMounted]. *)
Inductive Checkpoint :=
  | AtStart | AfterLoad | InCatch | AfterFallbackLoad | InFallbackCatch.

(** What the environment does during one run of
    [initTensorFlowAndLoadModel]. *)
Record LoadEnv := mkLoadEnv {
  webglReady : Settled unit;       (* Promise.all([setBackend('webgl'), ready()]) *)
  webglLoad : Settled ObjectDetection;
  cpuReady : Settled unit;         (* setBackend('cpu') *)
  cpuLoad : Settled ObjectDetection;
  isMounted : Checkpoint -> bool
}.

Record LoadState := mkLoadState {
  model : option ObjectDetection;
  isLoading : bool;
  modelLoadError : option string
}.

(** [message || fallback] on [error?.message] *)
Definition message_or (message : option string) (fallback : string) : string :=
  match message with
  | Some m => if bool_decide (m = "") then fallback else m
  | None => fallback
  end.

(** The inner [try]/[catch]: the CPU fallback. *)
Definition fallbackLoad (env : LoadEnv) (st : LoadState) : LoadState * list TfCall :=
  let failed (calls : list TfCall) (message : option string) :=
    if negb (isMounted env InFallbackCatch) then (st, calls)
    else ({| model := model st; isLoading := false;
             modelLoadError :=
               Some (message_or message "Failed to load detection model with fallback") |},
          calls) in
  match cpuReady env with
  | Rejected message => failed [SetBackend CPU] message
  | Resolved _ =>
      match cpuLoad env with
      | Rejected message => failed [SetBackend CPU; CocoSsdLoad] message
      | Resolved loadedModel =>
          if negb (isMounted env AfterFallbackLoad) then (st, [SetBackend CPU; CocoSsdLoad])
          else ({| model := Some loadedModel; isLoading := false; modelLoadError := None |},
                [SetBackend CPU; CocoSsdLoad])
      end
  end.

(** [initTensorFlowAndLoadModel]: the state it leaves and the TensorFlow
    calls it made, in order. *)
Definition initTensorFlowAndLoadModel (env : LoadEnv) (st : LoadState)
    : LoadState * list TfCall :=
  if negb (isMounted env AtStart) then (st, [])
  else
    let st1 := {| model := model st; isLoading := true; modelLoadError := None |} in
    let caught (calls : list TfCall) (message : option string) :=
      if negb (isMounted env InCatch) then (st1, calls)
      else
        let st2 := {| model := model st1; isLoading := isLoading st1;
                      modelLoadError :=
                        Some (message_or message "Failed to load detection model") |} in
        let '(st3, more) := fallbackLoad env st2 in
        (st3, calls ++ more) in
    match webglReady env with
    | Rejected message => caught [SetBackend WebGL; TfReady] message
    | Resolved _ =>
        match webglLoad env with
        | Rejected message => caught [SetBackend WebGL; TfReady; CocoSsdLoad] message
        | Resolved loadedModel =>
            if negb (isMounted env AfterLoad) then (st1, [SetBackend WebGL; TfReady; CocoSsdLoad])
            else ({| model := Some loadedModel; isLoading := false;
                     modelLoadError := modelLoadError st1 |},
                  [SetBackend WebGL; TfReady; CocoSsdLoad])
        end
    end.

(** The effect over [[isEnabled]]: it runs when the component mounts and
    each time [isEnabled] changes. *)
Definition loadEffect (isEnabled : bool) (env : LoadEnv) (st : LoadState)
    : LoadState * list TfCall :=
  if isEnabled then initTensorFlowAndLoadModel env st else (st, []).

(** The guard of the detection effect,
    [if (!model || !isEnabled || !videoRef.current) return]: the loop is
    started exactly when it is passed. *)
Definition loopStarts (isEnabled : bool) (video : option Video) (st : LoadState) : bool :=
  bool_decide (is_Some (model st)) && isEnabled && bool_decide (is_Some video).

(** A mounted component: the [isEnabled] prop, the loading state and every
    TensorFlow call made so far. *)
Record Component := mkComponent {
  isEnabled : bool;
  loadState : LoadState;
  tfCalls : list TfCall
}.

(** [useState] initial values, [isEnabled] as given on mount. *)
Definition mount (enabled : bool) (env : LoadEnv) : Component :=
  let '(st, calls) :=
    loadEffect enabled env
      {| model := None; isLoading := true; modelLoadError := None |} in
  {| isEnabled := enabled; loadState := st; tfCalls := calls |}.

(** The parent flips [isEnabled]; the effect runs again. *)
Definition toggleEnabled (env : LoadEnv) (c : Component) : Component :=
  let enabled := negb (isEnabled c) in
  let '(st, calls) := loadEffect enabled env (loadState c) in
  {| isEnabled := enabled; loadState := st; tfCalls := tfCalls c ++ calls |}.

(** The JSX shows "Model failed to load" under
    [modelLoadError && isEnabled]. *)
Definition showsLoadError (enabled : bool) (st : LoadState) : bool :=
  match modelLoadError st with
  | Some m => negb (bool_decide (m = "")) && enabled
  | None => false
  end.

Definition rejected {A} (s : Settled A) : bool :=
  match s with Rejected _ => true | Resolved _ => false end.

(** The [try] block throws: the WebGL backend or the load on it fails. *)
Definition webglFails (env : LoadEnv) : bool :=
  rejected (webglReady env) || rejected (webglLoad env).

(** The inner [try] block throws. *)
Definition cpuFails (env : LoadEnv) : bool :=
  rejected (cpuReady env) || rejected (cpuLoad env).

Definition isCpuAttempt (c : TfCall) : bool :=
  match c with SetBackend CPU => true | _ => false end.

Definition isWebglAttempt (c : TfCall) : bool :=
  match c with SetBackend WebGL => true | _ => false end.

Definition cpuAttempts (calls : list TfCall) : nat :=
  length (List.filter isCpuAttempt calls).

Definition webglAttempts (calls : list TfCall) : nat :=
  length (List.filter isWebglAttempt calls).

(** *** The detection loop

    One activation of the detection effect runs [detectPeople] and then
    lives on through the callbacks it leaves with the browser.  The loop
    state lists those callbacks; the browser fires any one of them, at a
    time of its choosing (a timeout not before it is due).  This is one
    loop on its own; the loops of all runs of the effect together, with
    the [requestRef] they share and the effect's cleanup, are modelled in
    [DetectionEffect] below. *)

Inductive Task :=
  | FrameRequest             (* requestAnimationFrame(detectPeople) *)
  | TimeoutCallback (due : Z)  (* setTimeout(() => requestAnimationFrame(detectPeople), 500) *)
  | DetectPromise.           (* await model.detect(video) *)

Inductive LogEntry :=
  | DetectCalled (t : Z) (video : Video)    (* model.detect(video) is called *)
  | DetectSettled (t : Z)                   (* its promise has settled *)
  | CountReported (n : nat).                (* onPeopleCountChange(n) *)

Record Loop := mkLoop {
  showOverlay : bool;            (* as captured by drawDetections *)
  hasCountListener : bool;       (* onPeopleCountChange is given *)
  clock : Z;                     (* time of the latest callback *)
  pending : list Task;
  detections : list Detection;
  canvasRef : option Canvas;
  log : list LogEntry
}.

Definition schedule (task : Task) (l : Loop) : Loop :=
  {| showOverlay := showOverlay l; hasCountListener := hasCountListener l;
     clock := clock l; pending := pending l ++ [task];
     detections := detections l; canvasRef := canvasRef l; log := log l |}.

Definition record (entries : list LogEntry) (l : Loop) : Loop :=
  {| showOverlay := showOverlay l; hasCountListener := hasCountListener l;
     clock := clock l; pending := pending l;
     detections := detections l; canvasRef := canvasRef l;
     log := log l ++ entries |}.

(** [video.readyState !== 4 || !model || !canvasRef.current]; the effect
    has returned before the loop when [model] is null. *)
Definition notReady (video : Video) (l : Loop) : bool :=
  negb (readyState video =? 4) || negb (bool_decide (is_Some (canvasRef l))).

(** [!video.paused && !video.ended && video.currentTime > 0] *)
Definition isPlaying (video : Video) : bool :=
  negb (paused video) && negb (ended video) && negb (Qle_bool (currentTime video) 0).

(** [detectPeople] up to its [await] (or to its end when there is none). *)
Definition detectPeople (t : Z) (video : Video) (l : Loop) : Loop :=
  if notReady video l then schedule FrameRequest l
  else if isPlaying video then schedule DetectPromise (record [DetectCalled t video] l)
  else schedule (TimeoutCallback (t + 500)) l.

(** What [detectPeople] does with the predictions: filter, [setDetections],
    notify the parent, draw. *)
Definition postProcess (video : Video) (predictions : list Detection) (l : Loop) : Loop :=
  let peopleDetections := List.filter isPerson predictions in
  {| showOverlay := showOverlay l; hasCountListener := hasCountListener l;
     clock := clock l; pending := pending l;
     detections := peopleDetections;
     canvasRef := drawDetections (showOverlay l) (Some video) peopleDetections (canvasRef l);
     log := log l ++ (if hasCountListener l
                      then [CountReported (length peopleDetections)] else []) |}.

(** [detectPeople] from the point where [await model.detect(video)]
    settles: a rejection is caught and logged to the console only. *)
Definition detectPeople_resume (t : Z) (video : Video)
    (result : Settled (list Detection)) (l : Loop) : Loop :=
  let l1 := record [DetectSettled t] l in
  let l2 := match result with
            | Resolved predictions => postProcess video predictions l1
            | Rejected _ => l1
            end in
  schedule (TimeoutCallback (t + 500)) l2.

Inductive Fire :=
  | FrameFires (video : Video)
  | TimeoutFires
  | DetectSettles (video : Video) (result : Settled (list Detection)).

Definition at_time (t : Z) (tasks : list Task) (l : Loop) : Loop :=
  {| showOverlay := showOverlay l; hasCountListener := hasCountListener l;
     clock := t; pending := tasks;
     detections := detections l; canvasRef := canvasRef l; log := log l |}.

(** The browser runs, at time [t], the [i]-th callback it holds; [None]
    when there is no such callback, when it is not of the kind [ev] says,
    when a timeout is not due yet, or when [t] lies in the past. *)
Definition fire (t : Z) (i : nat) (ev : Fire) (l : Loop) : option Loop :=
  if t <? clock l then None
  else
    let rest := at_time t (delete i (pending l)) l in
    match pending l !! i, ev with
    | Some FrameRequest, FrameFires video => Some (detectPeople t video rest)
    | Some (TimeoutCallback due), TimeoutFires =>
        if t <? due then None else Some (schedule FrameRequest rest)
    | Some DetectPromise, DetectSettles video result =>
        Some (detectPeople_resume t video result rest)
    | _, _ => None
    end.

Fixpoint fires (evs : list (Z * nat * Fire)) (l : Loop) : option Loop :=
  match evs with
  | [] => Some l
  | (t, i, ev) :: evs' =>
      match fire t i ev l with
      | Some l' => fires evs' l'
      | None => None
      end
  end.

(** The effect body once its guard is passed: [detectPeople()] is called
    directly, at time [t]. *)
Definition startLoop (overlay listener : bool) (t : Z) (video : Video)
    (dets : list Detection) (canvas : option Canvas) : Loop :=
  detectPeople t video
    {| showOverlay := overlay; hasCountListener := listener; clock := t;
       pending := []; detections := dets; canvasRef := canvas; log := [] |}.

(** Calls of [model.detect] not settled yet, reading the log in order. *)
Fixpoint inFlight (n : nat) (entries : list LogEntry) : nat :=
  match entries with
  | [] => n
  | DetectCalled _ _ :: es => inFlight (S n) es
  | DetectSettled _ :: es => inFlight (pred n) es
  | CountReported _ :: es => inFlight n es
  end.

(** Reading the log in order: no call of [model.detect] while another is
    unsettled, and none sooner than 500 after the last one settled.
    [busy] tells whether a call is unsettled, [since] when the last one
    settled. *)
Fixpoint paced (busy : bool) (since : option Z) (entries : list LogEntry) : Prop :=
  match entries with
  | [] => True
  | DetectCalled t _ :: es =>
      busy = false /\
      match since with Some t0 => t0 + 500 <= t | None => True end /\
      paced true since es
  | DetectSettled t :: es => busy = true /\ paced false (Some t) es
  | CountReported _ :: es => paced busy since es
  end.

(** Where a reading of the log that starts in [(busy, since)] ends. *)
Fixpoint endState (busy : bool) (since : option Z) (entries : list LogEntry)
    : bool * option Z :=
  match entries with
  | [] => (busy, since)
  | DetectCalled _ _ :: es => endState true since es
  | DetectSettled t :: es => endState false (Some t) es
  | CountReported _ :: es => endState busy since es
  end.

(** The video states under which the log shows [model.detect] called. *)
Definition detectCalls (entries : list LogEntry) : list Video :=
  omap (fun e => match e with DetectCalled _ v => Some v | _ => None end) entries.

(** The video is decode-ready and playing: what [detectPeople] asks for
    before it calls the model. *)
Definition playingFrame (v : Video) : Prop :=
  readyState v = 4 /\ paused v = false /\ ended v = false /\ (0 < currentTime v)%Q.

(** What holds of the loop between two callbacks: the log is paced, the
    model was only called on playing frames, and the one callback that is
    outstanding fits the end of the log. *)
Definition loopInv (l : Loop) : Prop :=
  paced false None (log l) /\
  Forall playingFrame (detectCalls (log l)) /\
  exists task, pending l = [task] /\
    let busy := (endState false None (log l)).1 in
    let since := (endState false None (log l)).2 in
    match task with
    | DetectPromise => busy = true
    | FrameRequest =>
        busy = false /\ forall t0, since = Some t0 -> t0 + 500 <= clock l
    | TimeoutCallback due =>
        busy = false /\ forall t0, since = Some t0 -> t0 + 500 <= due
    end.

End PeopleDetection.

(** ** VideoPlayer.tsx: the HLS error handler *)

Module VideoPlayer.

(** [Hls.ErrorTypes] *)
Inductive ErrorTypes :=
  | NETWORK_ERROR | MEDIA_ERROR | KEY_SYSTEM_ERROR | MUX_ERROR | OTHER_ERROR.

(** The fields of hls.js's error data that the handler reads, and
    [details], the library's own text, which it does not. *)
Record ErrorData := mkErrorData {
  type : ErrorTypes;
  details : string;
  fatal : bool;
  response : option (option Z)   (* data.response, and its code when defined *)
}.

Inductive HlsCall := StartLoad | RecoverMediaError | Destroy.

Definition isDestroy (c : HlsCall) : bool :=
  match c with Destroy => true | _ => false end.

Definition isStartLoad (c : HlsCall) : bool :=
  match c with StartLoad => true | _ => false end.

(** The states of the component that the handler sets, with the [hls]
    instance: the calls made on it, and whether it has been destroyed. *)
Record Player := mkPlayer {
  connecting : bool;
  loading : bool;
  error : option string;
  errorDetails : option string;
  hlsCalls : list HlsCall;
  hlsDestroyed : bool
}.

(** The message chosen from the HTTP response. *)
Definition httpMessage (data : ErrorData) : string :=
  match response data with
  | Some (Some code) =>
      if code =? 403 then
        "Access denied (403 Forbidden). This stream requires authorization or is not publicly accessible."
      else if code =? 404 then
        "Stream not found (404). The URL may be incorrect."
      else if negb (code =? 0) then "HTTP error " +:+ pretty code
      else "Failed to load stream"
  | _ => "Failed to load stream"
  end.

(** [!data.response || data.response.code !== 403] *)
Definition notForbidden (data : ErrorData) : bool :=
  match response data with
  | None => true
  | Some code => negb (bool_decide (code = Some 403))
  end.

Definition call (c : HlsCall) (p : Player) : Player :=
  {| connecting := connecting p; loading := loading p;
     error := error p; errorDetails := errorDetails p;
     hlsCalls := hlsCalls p ++ [c];
     hlsDestroyed := hlsDestroyed p || isDestroy c |}.

Definition showError (title message : string) (p : Player) : Player :=
  {| connecting := connecting p; loading := loading p;
     error := Some title; errorDetails := Some message;
     hlsCalls := hlsCalls p; hlsDestroyed := hlsDestroyed p |}.

(** The listener registered with [hls.on(Hls.Events.ERROR, ...)]. *)
Definition onHlsError (data : ErrorData) (p : Player) : Player :=
  let errorMessage := httpMessage data in
  if fatal data then
    match type data with
    | NETWORK_ERROR =>
        let errorMessage := "Network error: " +:+ errorMessage in
        if notForbidden data then call StartLoad p
        else call Destroy (showError "Stream Access Error" errorMessage p)
    | MEDIA_ERROR => call RecoverMediaError p
    | _ => call Destroy (showError "Stream Error" errorMessage p)
    end
  else p.

(** hls.js emits an error: [hls.destroy()] has removed every listener, so
    a destroyed instance reaches no handler. *)
Definition emitError (p : Player) (data : ErrorData) : Player :=
  if hlsDestroyed p then p else onHlsError data p.

Definition emitErrors (errors : list ErrorData) (p : Player) : Player :=
  foldl emitError p errors.

(** The component as the timer callback of the source-change effect
    leaves it once it has created the [Hls] instance and registered the
    handler on it: not connecting any more, still loading, no error
    shown, no call made on the instance yet.  (That effect itself is not
    modelled: as given it calls [setIsPeopleDetectionEnabled], which the
    component does not define, before it sets the timer.) *)
Definition attached : Player :=
  {| connecting := false; loading := true; error := None; errorDetails := None;
     hlsCalls := []; hlsDestroyed := false |}.

Definition reloads (p : Player) : nat :=
  length (List.filter isStartLoad (hlsCalls p)).

End VideoPlayer.

(** ** VideoTabs.tsx: the [VideoSource] interface *)

Module VideoTabs.

Record VideoSource := mkVideoSource {
  id : string;
  name : string;
  filename : string;
  description : string;
  isHlsStream : option bool;     (* isHlsStream?: boolean *)
  hlsUrl : option string         (* hlsUrl?: string *)
}.

End VideoTabs.

(** ** App.tsx: the list of sources

    Strings stand for sequences of code units below 256; on these
    [toLowerCase] changes the letters A-Z and the accented capitals, and
    only the former come out in [a-z]. *)

Module AppSources.
Import VideoTabs.

Definition isUpperAZ (c : Ascii.ascii) : bool :=
  (65 <=? Ascii.nat_of_ascii c)%nat && (Ascii.nat_of_ascii c <=? 90)%nat.

Definition isLowerAZ (c : Ascii.ascii) : bool :=
  (97 <=? Ascii.nat_of_ascii c)%nat && (Ascii.nat_of_ascii c <=? 122)%nat.

Definition isDigit (c : Ascii.ascii) : bool :=
  (48 <=? Ascii.nat_of_ascii c)%nat && (Ascii.nat_of_ascii c <=? 57)%nat.

(** One code unit of [name.toLowerCase().replace(/[^a-z0-9]/g, '_')]. *)
Definition slugChar (c : Ascii.ascii) : Ascii.ascii :=
  if isUpperAZ c then Ascii.ascii_of_nat (Ascii.nat_of_ascii c + 32)
  else if isLowerAZ c || isDigit c then c
  else Ascii.ascii_of_nat 95.

Fixpoint slug (s : string) : string :=
  match s with
  | EmptyString => EmptyString
  | String c s' => String (slugChar c) (slug s')
  end.

(** [s.slice(-n)] on a string, for [n > 0]. *)
Definition lastChars (n : nat) (s : string) : string :=
  String.substring (String.length s - n) n s.

(** The identifier [handleAddStream] makes up; [now] is [Date.now()]. *)
Definition streamId (now : Z) (name : string) : string :=
  slug name +:+ "_" +:+ lastChars 4 (pretty now).

Definition newStream (now : Z) (name url : string) : VideoSource :=
  {| id := streamId now name;
     name := name;
     filename := "";
     description := "Live stream from " +:+ url;
     isHlsStream := Some true;
     hlsUrl := Some url |}.

(** [handleAddStream]: [videos] is the list of the render that created
    the handler; the result is the new list and the new active id. *)
Definition handleAddStream (videos : list VideoSource) (now : Z) (name url : string)
    : list VideoSource * string :=
  (videos ++ [newStream now name url], streamId now name).

(** [getCurrentVideoSource]: [videos.find(v => v.id === activeVideoId)] *)
Definition getCurrentVideoSource (videos : list VideoSource) (activeVideoId : string)
    : option VideoSource :=
  List.find (fun v => bool_decide (id v = activeVideoId)) videos.

(** [getCurrentVideoFilename] *)
Definition getCurrentVideoFilename (videos : list VideoSource) (activeVideoId : string)
    : string :=
  match getCurrentVideoSource videos activeVideoId with
  | Some video => filename video
  | None => "football.mp4"
  end.

End AppSources.

(** ** PeopleDetectionGraph.tsx: the chart fed by the count series *)

Module PeopleDetectionGraph.
Import App.

(** [arr.slice(start)] *)
Definition slice_from {A} (start : Z) (arr : list A) : list A :=
  let len := Z.of_nat (length arr) in
  let k := if start <? 0 then Z.max (len + start) 0 else Z.min start len in
  drop (Z.to_nat k) arr.

(** What the component keeps of the chart: its labels and its data. *)
Record Chart := mkChart { labels : list string; data : list Z }.

(** [updateChart]: [toLocaleTimeString] renders a timestamp in the
    user's locale, [maxPoints] is the prop (60 unless given),
    [currentData] is [currentDataRef.current] and [chart] is
    [chartInstanceRef.current]. *)
Definition updateChart (toLocaleTimeString : Z -> string) (maxPoints : Z)
    (currentData : list PeopleDataPoint) (chart : option Chart) : option Chart :=
  match chart with
  | None => None
  | Some c =>
      if (length currentData =? 0)%nat then Some c
      else
        let limitedData := slice_from (- maxPoints) currentData in
        Some {| labels := map (fun point => toLocaleTimeString (timestamp point)) limitedData;
                data := map count limitedData |}
  end.

(** The intervals the browser runs for this page, and the identifier the
    next [window.setInterval] returns. *)
Record Browser := mkBrowser { intervals : list Z; nextInterval : Z }.

Record Refs := mkRefs { intervalRef : option Z; browser : Browser }.

(** [clearAllIntervals]; [if (intervalRef.current)] is passed by a
    non-zero number. *)
Definition clearAllIntervals (r : Refs) : Refs :=
  match intervalRef r with
  | Some n =>
      if n =? 0 then r
      else {| intervalRef := None;
              browser := {| intervals := List.filter (fun m => negb (m =? n)) (intervals (browser r));
                            nextInterval := nextInterval (browser r) |} |}
  | None => r
  end.

(** [setupInterval] *)
Definition setupInterval (isPaused : bool) (r : Refs) : Refs :=
  let r1 := clearAllIntervals r in
  if negb isPaused then
    let intervalId := nextInterval (browser r1) in
    {| intervalRef := Some intervalId;
       browser := {| intervals := intervals (browser r1) ++ [intervalId];
                     nextInterval := intervalId + 1 |} |}
  else r1.

(** The effect over [[isPaused, sessionId]] runs [setupInterval] on
    mount; when a dependency changes its cleanup, [clearAllIntervals],
    runs and then the effect again; on unmount only the cleanup runs. *)
Definition mountGraph (isPaused : bool) (b : Browser) : Refs :=
  setupInterval isPaused {| intervalRef := None; browser := b |}.

Definition depsChange (r : Refs) (isPaused : bool) : Refs :=
  setupInterval isPaused (clearAllIntervals r).

Definition unmountGraph (r : Refs) : Refs := clearAllIntervals r.

(** The intervals of the page are those of others, all older than
    [next0], and at most one of the graph, which [intervalRef] holds. *)
Definition tidy (others : list Z) (next0 : Z) (r : Refs) : Prop :=
  next0 <= nextInterval (browser r) /\
  match intervalRef r with
  | Some n => next0 <= n < nextInterval (browser r) /\
              intervals (browser r) = others ++ [n]
  | None => intervals (browser r) = others
  end.

End PeopleDetectionGraph.

(** ** PeopleDetection.tsx: the detection effect of the component, with
    all the loops its runs have started and the one [requestRef] its
    cleanup works on *)

Module DetectionEffect.
Module PD := PeopleDetection.

(** What the [detectPeople] of one run of the detection effect has in its
    closure: the [drawDetections] (and so the [showOverlay]) and the
    [onPeopleCountChange] of the render in which the effect ran.
    [activation] numbers the runs of the effect body. *)
Record Closure := mkClosure {
  activation : nat;
  overlay : bool;
  listener : bool
}.

(** A callback the browser holds, with the closure it belongs to. *)
Inductive Held :=
  | HeldFrame (id : Z) (c : Closure)     (* requestAnimationFrame(detectPeople), which returned [id] *)
  | HeldTimeout (due : Z) (c : Closure)  (* setTimeout(..., 500) *)
  | HeldDetect (c : Closure).            (* await model.detect(video) *)




(** The component as its detection loops see it.  There is one
    [requestRef] and one [canvasRef] for the component, and one
    [detections] state; every loop writes to them. *)
Record Detector := mkDetector {
  clock : Z;                       (* time of the latest callback *)
  held : list Held;                (* callbacks the browser holds *)
  requestRef : option Z;           (* requestRef.current *)
  nextFrame : Z;                   (* what the next requestAnimationFrame returns *)
  activations : nat;               (* runs of the effect body so far *)
  detections : list PD.Detection;
  canvasRef : option PD.Canvas;
  log : list PD.LogEntry
}.

(** [useRef(null)], [useState([])], nothing held. *)
Definition mounted (t : Z) (canvas : option PD.Canvas) (next : Z) : Detector :=
  {| clock := t; held := []; requestRef := None; nextFrame := next;
     activations := 0; detections := []; canvasRef := canvas; log := [] |}.

(** The loop state a callback of closure [c] starts from at time [t]. *)
Definition closureLoop (c : Closure) (t : Z) (d : Detector) : PD.Loop :=
  {| PD.showOverlay := overlay c; PD.hasCountListener := listener c;
     PD.clock := t; PD.pending := [];
     PD.detections := detections d; PD.canvasRef := canvasRef d;
     PD.log := log d |}.

(** The browser takes a callback of closure [c].  A frame request is
    [requestRef.current = requestAnimationFrame(detectPeople)]. *)
Definition hold (c : Closure) (d : Detector) (task : PD.Task) : Detector :=
  match task with
  | PD.FrameRequest =>
      {| clock := clock d; held := held d ++ [HeldFrame (nextFrame d) c];
         requestRef := Some (nextFrame d); nextFrame := nextFrame d + 1;
         activations := activations d; detections := detections d;
         canvasRef := canvasRef d; log := log d |}
  | PD.TimeoutCallback due =>
      {| clock := clock d; held := held d ++ [HeldTimeout due c];
         requestRef := requestRef d; nextFrame := nextFrame d;
         activations := activations d; detections := detections d;
         canvasRef := canvasRef d; log := log d |}
  | PD.DetectPromise =>
      {| clock := clock d; held := held d ++ [HeldDetect c];
         requestRef := requestRef d; nextFrame := nextFrame d;
         activations := activations d; detections := detections d;
         canvasRef := canvasRef d; log := log d |}
  end.

(** The component after a callback of closure [c] has run to its end or
    to its [await]: [l] is what the callback left, [rest] the callbacks
    the browser still held. *)
Definition after (c : Closure) (rest : list Held) (l : PD.Loop) (d : Detector)
    : Detector :=
  foldl (hold c)
    {| clock := PD.clock l; held := rest; requestRef := requestRef d;
       nextFrame := nextFrame d; activations := activations d;
       detections := PD.detections l; canvasRef := PD.canvasRef l;
       log := PD.log l |}
    (PD.pending l).

(** The browser runs, at time [t], the [i]-th callback it holds, whatever
    run of the effect it comes from. *)
Definition fire (t : Z) (i : nat) (ev : PD.Fire) (d : Detector) : option Detector :=
  if t <? clock d then None
  else
    let rest := delete i (held d) in
    match held d !! i, ev with
    | Some (HeldFrame _ c), PD.FrameFires video =>
        Some (after c rest (PD.detectPeople t video (closureLoop c t d)) d)
    | Some (HeldTimeout due c), PD.TimeoutFires =>
        if t <? due then None
        else Some (after c rest (PD.schedule PD.FrameRequest (closureLoop c t d)) d)
    | Some (HeldDetect c), PD.DetectSettles video result =>
        Some (after c rest (PD.detectPeople_resume t video result (closureLoop c t d)) d)
    | _, _ => None
    end.

(** The effect body once its guard is passed: a new [detectPeople] is
    created and called directly. *)
Definition activate (showOverlay hasCountListener : bool) (t : Z) (video : PD.Video)
    (d : Detector) : option Detector :=
  if t <? clock d then None
  else
    let c := mkClosure (activations d) showOverlay hasCountListener in
    Some (after c (held d) (PD.detectPeople t video (closureLoop c t d))
            {| clock := clock d; held := held d; requestRef := requestRef d;
               nextFrame := nextFrame d; activations := S (activations d);
               detections := detections d; canvasRef := canvasRef d;
               log := log d |}).

(** [cancelAnimationFrame(n)]: a frame of that identifier, if the browser
    still holds it, will not fire. *)
Definition cancelAnimationFrame (n : Z) (tasks : list Held) : list Held :=
  List.filter (fun h => match h with
                        | HeldFrame id _ => negb (id =? n)
                        | _ => true
                        end) tasks.

(** The cleanup of the detection effect:
    [if (requestRef.current) { cancelAnimationFrame(requestRef.current);
    requestRef.current = null }]. *)
Definition cleanup (d : Detector) : Detector :=
  match requestRef d with
  | Some n =>
      if n =? 0 then d
      else
        {| clock := clock d; held := cancelAnimationFrame n (held d);
           requestRef := None; nextFrame := nextFrame d;
           activations := activations d; detections := detections d;
           canvasRef := canvasRef d; log := log d |}
  | None => d
  end.

(** What happens to the component: the browser runs a callback, or React
    runs the cleanup of the effect (a dependency changed, the component
    unmounts), or React runs the effect body and its guard is passed. *)
Inductive Happening :=
  | Fires (t : Z) (i : nat) (ev : PD.Fire)
  | CleansUp
  | Activates (showOverlay hasCountListener : bool) (t : Z) (video : PD.Video).

Definition happen (d : Detector) (h : Happening) : option Detector :=
  match h with
  | Fires t i ev => fire t i ev d
  | CleansUp => Some (cleanup d)
  | Activates showOverlay hasCountListener t video =>
      activate showOverlay hasCountListener t video d
  end.

Fixpoint happens (hs : list Happening) (d : Detector) : option Detector :=
  match hs with
  | [] => Some d
  | h :: hs' =>
      match happen d h with
      | Some d' => happens hs' d'
      | None => None
      end
  end.


End DetectionEffect.

(** ** VideoPlayer.tsx: how a run of HLS errors ends, and the time sync *)

Module VideoPlayerMore.
Import VideoPlayer.
Import PrimFloat.

(** The events on which the handler gives up: fatal, and either a 403
    network error or neither a network nor a media error. *)
Definition terminal (data : ErrorData) : bool :=
  fatal data &&
  match type data with
  | NETWORK_ERROR => negb (notForbidden data)
  | MEDIA_ERROR => false
  | _ => true
  end.

(** The title and the detail the handler shows for a terminal event. *)
Definition shownTitle (data : ErrorData) : string :=
  match type data with
  | NETWORK_ERROR => "Stream Access Error"
  | _ => "Stream Error"
  end.

Definition shownDetail (data : ErrorData) : string :=
  match type data with
  | NETWORK_ERROR => "Network error: " +:+ httpMessage data
  | _ => httpMessage data
  end.

(** A JavaScript string in a condition: null and the empty string fail
    it. *)
Definition truthy (s : option string) : bool :=
  match s with
  | Some m => negb (bool_decide (m = ""))
  | None => false
  end.

(** [Math.abs(video.currentTime - currentTime) > 0.5], in the double
    arithmetic of JavaScript. *)
Definition drifted (videoTime currentTime : PrimFloat.float) : bool :=
  PrimFloat.ltb 0.5%float (PrimFloat.abs (PrimFloat.sub videoTime currentTime)).

(** The effect over [[currentTime, connecting, loading, error,
    videoSource]]: [videoTime] is [videoRef.current.currentTime] when the
    element is mounted, [isHlsStream] is [videoSource?.isHlsStream]; the
    result is the value the effect assigns to
    [videoRef.current.currentTime], if it assigns one. *)
Definition syncTime (p : Player) (isHlsStream : bool) (currentTime : PrimFloat.float)
    (videoTime : option PrimFloat.float) : option PrimFloat.float :=
  match videoTime with
  | None => None
  | Some vt =>
      if connecting p || loading p || truthy (error p) || isHlsStream then None
      else if drifted vt currentTime then Some currentTime
      else None
  end.

(** [handleTimeUpdate]: the position passed to [onTimeUpdate], if it is
    called. *)
Definition handleTimeUpdate (hasListener isHlsStream : bool)
    (videoTime : PrimFloat.float) : option PrimFloat.float :=
  if hasListener && negb isHlsStream then Some videoTime else None.

End VideoPlayerMore.

(** ** AddStreamModal.tsx: the form that adds a stream *)

Module AddStreamModal.

(** What [trim] removes, among the code units below 256: tab, line feed,
    vertical tab, form feed, carriage return, space, no-break space. *)
Definition isWhiteSpace (c : Ascii.ascii) : bool :=
  let n := Ascii.nat_of_ascii c in
  ((9 <=? n) && (n <=? 13) || (n =? 32) || (n =? 160))%nat.

(** [!s.trim()]: the string holds nothing but white space. *)
Fixpoint blank (s : string) : bool :=
  match s with
  | EmptyString => true
  | String c s' => isWhiteSpace c && blank s'
  end.

(** The line terminators, which [.] does not match. *)
Definition isLineTerminator (c : Ascii.ascii) : bool :=
  let n := Ascii.nat_of_ascii c in ((n =? 10) || (n =? 13))%nat.

(** Any characters of one line, up to the end of the input. *)
Fixpoint noLineBreak (s : string) : bool :=
  match s with
  | EmptyString => true
  | String c s' => negb (isLineTerminator c) && noLineBreak s'
  end.

(** A character as the [i] flag compares it. *)
Definition foldCase (c : Ascii.ascii) : Ascii.ascii :=
  let n := Ascii.nat_of_ascii c in
  if ((65 <=? n) && (n <=? 90))%nat then Ascii.ascii_of_nat (n + 32) else c.

Fixpoint foldCases (s : string) : string :=
  match s with
  | EmptyString => EmptyString
  | String c s' => String (foldCase c) (foldCases s')
  end.

(** The literal [pat] (in lower case) at the start of [s], whatever the
    case: what follows it. *)
Fixpoint ciPrefix (pat s : string) : option string :=
  match pat with
  | EmptyString => Some s
  | String a pat' =>
      match s with
      | String c s' =>
          if bool_decide (foldCase c = a) then ciPrefix pat' s' else None
      | EmptyString => None
      end
  end.

(** The optional query and the end of the input: a question mark and
    the rest of the line, or nothing. *)
Definition queryOk (q : string) : bool :=
  match q with
  | EmptyString => true
  | String c q' => bool_decide (c = Ascii.ascii_of_nat 63) && noLineBreak q'
  end.

(** What follows the scheme: one character or more on the line, the
    extension [.m3u8], the optional query, the end; [some] tells that a
    character has been taken already. *)
Fixpoint tailMatches (some : bool) (s : string) : bool :=
  (some && match ciPrefix ".m3u8" s with
           | Some q => queryOk q
           | None => false
           end)
  || match s with
     | String c s' => negb (isLineTerminator c) && tailMatches true s'
     | EmptyString => false
     end.

(** [urlRegex.test(url)], for the pattern
    [^(https?://).+(.m3u8)(?...)?$] with the flag [i], slashes, dot and
    question mark being the escaped, literal ones. *)
Definition urlRegex_test (url : string) : bool :=
  match ciPrefix "https://" url with
  | Some rest => tailMatches false rest
  | None => false
  end
  || match ciPrefix "http://" url with
     | Some rest => tailMatches false rest
     | None => false
     end.

(** The regular expression read as a shape: a scheme, at least one
    character on the line, the extension, and nothing more or a query. *)
Definition urlShape (url : string) : Prop :=
  exists scheme body ext query,
    url = scheme +:+ body +:+ ext +:+ query /\
    (foldCases scheme = "http://" \/ foldCases scheme = "https://") /\
    body <> "" /\ noLineBreak body = true /\
    foldCases ext = ".m3u8" /\
    (query = "" \/ exists q, query = "?" +:+ q /\ noLineBreak q = true).

Record Form := mkForm {
  streamName : string;
  streamUrl : string;
  error : string
}.

(** What [handleSubmit] leaves: the form, the arguments of
    [onAddStream] if it was called, and whether [onClose] was. *)
Record Submitted := mkSubmitted {
  form : Form;
  added : option (string * string);
  closed : bool
}.

Definition reject (message : string) (f : Form) : Submitted :=
  {| form := {| streamName := streamName f; streamUrl := streamUrl f; error := message |};
     added := None; closed := false |}.

(** [handleSubmit] *)
Definition handleSubmit (f : Form) : Submitted :=
  if blank (streamName f) then reject "Please enter a name for the stream" f
  else if blank (streamUrl f) then reject "Please enter a valid HLS URL" f
  else if negb (urlRegex_test (streamUrl f)) then
    reject "Please enter a valid HLS URL (must end with .m3u8)" f
  else
    {| form := {| streamName := ""; streamUrl := ""; error := "" |};
       added := Some (streamName f, streamUrl f);
       closed := true |}.

(** [handleCancel] *)
Definition handleCancel (f : Form) : Submitted :=
  {| form := {| streamName := ""; streamUrl := ""; error := "" |};
     added := None; closed := true |}.

End AddStreamModal.

(** ** services/api.ts: frame and video addresses, error texts *)

Module Api.

Definition API_URL : string := "http://localhost:5001/api".

Definition isSlash (c : Ascii.ascii) : bool :=
  bool_decide (c = Ascii.ascii_of_nat 47).

(** [s.includes('/')] *)
Fixpoint includesSlash (s : string) : bool :=
  match s with
  | EmptyString => false
  | String c s' => isSlash c || includesSlash s'
  end.

(** [s.split('/').pop()]: what follows the last slash, or all of [s]
    when it has none. *)
Fixpoint lastSegment (s : string) : string :=
  match s with
  | EmptyString => EmptyString
  | String c s' =>
      if includesSlash s' then lastSegment s'
      else if isSlash c then s'
      else String c s'
  end.

(** [cleanFilename] of [getFrameUrl] *)
Definition cleanFilename (filename : string) : string :=
  if includesSlash filename then lastSegment filename else filename.

(** [getFrameUrl], with [USE_DEV_MODE] false as the source has it. *)
Definition getFrameUrl (filename : string) : string :=
  API_URL +:+ "/frames/" +:+ cleanFilename filename.

(** The names [cachedVideoUrls], an object literal, inherits from
    [Object.prototype]: looked up, each yields a function or an object,
    never a string. *)
Definition objectPrototypeKeys : list string :=
  [ "constructor"; "__defineGetter__"; "__defineSetter__"; "hasOwnProperty";
    "__lookupGetter__"; "__lookupSetter__"; "isPrototypeOf";
    "propertyIsEnumerable"; "toString"; "valueOf"; "__proto__";
    "toLocaleString" ].

(** What [getVideoUrl] returns: a string of its own making, or what the
    prototype holds under that name. *)
Inductive Returned :=
  | Url (url : string)
  | Inherited (key : string).

(** [getVideoUrl]; the module-level cache is passed in and out. *)
Definition getVideoUrl (cachedVideoUrls : gmap string string) (filename : string)
    : Returned * gmap string string :=
  if bool_decide (filename ∈ objectPrototypeKeys) then (Inherited filename, cachedVideoUrls)
  else
    let store :=
      let publicUrl := "/" +:+ filename in
      (Url publicUrl, <[filename := publicUrl]> cachedVideoUrls) in
    match cachedVideoUrls !! filename with
    | Some cached => if bool_decide (cached = "") then store else (Url cached, cachedVideoUrls)
    | None => store
    end.

(** Every entry of the cache holds the address made from its key. *)
Definition wellCached (cache : gmap string string) : Prop :=
  forall k v, cache !! k = Some v -> v = "/" +:+ k.

(** Calls in a row, the cache threaded through them. *)
Fixpoint getVideoUrls (cache : gmap string string) (filenames : list string)
    : list Returned * gmap string string :=
  match filenames with
  | [] => ([], cache)
  | f :: fs =>
      let '(r, cache1) := getVideoUrl cache f in
      let '(rs, cache2) := getVideoUrls cache1 fs in
      (r :: rs, cache2)
  end.

(** The error a request ends with, as the [catch] blocks read it:
    [error.response] with its [data.error] and [status], whether
    [error.request] is set, and [error.message]. *)
Record ErrorResponse := mkErrorResponse {
  dataError : option string;
  status : Z
}.

Record RequestError := mkRequestError {
  response : option ErrorResponse;
  request : bool;
  message : option string
}.

Definition nonEmpty (s : option string) : option string :=
  match s with
  | Some m => if bool_decide (m = "") then None else Some m
  | None => None
  end.

(** The message of the error [analyzeFrame] throws. *)
Definition analyzeFrameError (e : RequestError) : string :=
  match response e with
  | Some r =>
      match nonEmpty (dataError r) with
      | Some m => m
      | None =>
          if negb (status r =? 0) then "Server error (" +:+ pretty (status r) +:+ ")"
          else "Unknown error occurred"
      end
  | None =>
      if request e then "No response from server"
      else match nonEmpty (message e) with
           | Some m => m
           | None => "Unknown error occurred"
           end
  end.

(** The message of the error [analyzeStreamSnapshot] throws. *)
Definition analyzeStreamSnapshotError (e : RequestError) : string :=
  match response e with
  | Some r =>
      match nonEmpty (dataError r) with
      | Some m => m
      | None => match nonEmpty (message e) with
                | Some m => m
                | None => "Unknown error occurred"
                end
      end
  | None => match nonEmpty (message e) with
            | Some m => m
            | None => "Unknown error occurred"
            end
  end.

(** App.tsx, the [catch] of [handleAnalysisRequest]: the text of the
    alert for a caught error of message [thrown]. *)
Definition alertText (thrown : string) : string :=
  let errorMessage := if bool_decide (thrown = "") then "Failed to analyze video frame"
                      else thrown in
  "Analysis failed: " +:+ errorMessage +:+ ". Please try again.".

End Api.

(** ** AnalysisHistory.tsx *)

Module AnalysisHistory.

Definition isUnderscore (c : Ascii.ascii) : bool :=
  bool_decide (c = Ascii.ascii_of_nat 95).

(** [s.includes('_')] *)
Fixpoint includesUnderscore (s : string) : bool :=
  match s with
  | EmptyString => false
  | String c s' => isUnderscore c || includesUnderscore s'
  end.

(** [s.split('_')[0]] *)
Fixpoint firstPart (s : string) : string :=
  match s with
  | EmptyString => EmptyString
  | String c s' => if isUnderscore c then EmptyString else String c (firstPart s')
  end.

(** What follows the first underscore of [s]. *)
Fixpoint afterFirst (s : string) : string :=
  match s with
  | EmptyString => EmptyString
  | String c s' => if isUnderscore c then s' else afterFirst s'
  end.

(** [s.substring(from, to)] for [from <= to] *)
Definition substring (from to : nat) (s : string) : string :=
  String.substring from (to - from) s.

(** [formatTimestamp] *)
Definition formatTimestamp (timestamp : string) : string :=
  if includesUnderscore timestamp then
    let date := firstPart timestamp in
    let time := firstPart (afterFirst timestamp) in
    let year := substring 0 4 date in
    let month := substring 4 6 date in
    let day := substring 6 8 date in
    let hours := substring 0 2 time in
    let minutes := substring 2 4 time in
    let seconds := substring 4 6 time in
    year +:+ "-" +:+ month +:+ "-" +:+ day +:+ " " +:+
    hours +:+ ":" +:+ minutes +:+ ":" +:+ seconds
  else timestamp.

End AnalysisHistory.

(** * Properties *)

(** ** Arrays *)

Section Slices.
Context {A : Type}.
Implicit Types (l : list A) (x : A).

Lemma slice_but_last_snoc l x : slice_but_last (l ++ [x]) = l.
Proof.
  unfold slice_but_last. rewrite length_app. simpl.
  replace (length l + 1 - 1)%nat with (length l) by lia.
  by rewrite take_app_length.
Qed.

Lemma length_slice_last n l : length (slice_last n l) = (length l `min` n)%nat.
Proof. unfold slice_last. rewrite length_drop. lia. Qed.

Lemma slice_last_suffix n l :
  take (length l - n) l ++ slice_last n l = l.
Proof. apply take_drop. Qed.

Lemma last_inv l : l = [] \/ exists l' x, l = l' ++ [x] /\ last l = Some x.
Proof.
  destruct l as [|y l] using rev_ind; [by left|right].
  exists l, y. by rewrite last_snoc.
Qed.
End Slices.

Lemma app_cons c s t : String c s +:+ t = String c (s +:+ t).
Proof. reflexivity. Qed.

(** ** The count aggregator *)

Module AppSpec.
Import App.

Lemma append_capped_drop prev p :
  append_capped prev p = drop (length prev + 1 - 300) (prev ++ [p]).
Proof.
  unfold append_capped, slice_last. rewrite length_app. simpl.
  destruct (Nat.ltb_spec 300 (length prev + 1)) as [Hlt|Hge]; [done|].
  replace (length prev + 1 - 300)%nat with 0%nat by lia. done.
Qed.

Lemma append_capped_length prev p :
  (length (append_capped prev p) <= 300)%nat.
Proof. rewrite append_capped_drop, length_drop, length_app. simpl. lia. Qed.

Lemma append_capped_last prev p : last (append_capped prev p) = Some p.
Proof.
  rewrite append_capped_drop.
  rewrite drop_app_le by lia.
  by rewrite last_snoc.
Qed.

Lemma updateHistory_nil now cnt : updateHistory now cnt [] = [mkPoint now cnt].
Proof. reflexivity. Qed.

Lemma updateHistory_snoc now cnt init lastPoint :
  updateHistory now cnt (init ++ [lastPoint]) =
    if within_jitter now lastPoint then init ++ [mkPoint now cnt]
    else append_capped (init ++ [lastPoint]) (mkPoint now cnt).
Proof.
  unfold updateHistory. rewrite last_snoc, slice_but_last_snoc. done.
Qed.

Lemma updateHistory_last now cnt prev :
  last (updateHistory now cnt prev) = Some (mkPoint now cnt).
Proof.
  destruct (last_inv prev) as [->|(init & lp & -> & _)].
  - done.
  - rewrite updateHistory_snoc. destruct (within_jitter now lp).
    + by rewrite last_snoc.
    + apply append_capped_last.
Qed.

Lemma updateHistory_length now cnt prev :
  (length prev <= 300)%nat -> (length (updateHistory now cnt prev) <= 300)%nat.
Proof.
  intros Hlen. destruct (last_inv prev) as [->|(init & lp & -> & _)].
  - simpl. lia.
  - rewrite updateHistory_snoc. destruct (within_jitter now lp).
    + rewrite length_app in *. simpl in *. lia.
    + apply append_capped_length.
Qed.

Lemma step_length st ev :
  (length (peopleCountHistory st) <= 300)%nat ->
  (length (peopleCountHistory (step st ev)) <= 300)%nat.
Proof.
  intros Hlen. destruct ev as [captured now cnt|now|id]; simpl.
  - destruct captured; [by apply updateHistory_length|done].
  - destruct (negb (isPeopleDetectionEnabled st)); simpl; [lia|done].
  - lia.
Qed.

Lemma run_length evs st :
  (length (peopleCountHistory st) <= 300)%nat ->
  (length (peopleCountHistory (run evs st)) <= 300)%nat.
Proof.
  revert st. induction evs as [|ev evs IH]; intros st Hlen; [done|].
  apply IH. by apply step_length.
Qed.

(** C5.  Whatever happens to the App, the retained series never holds more
    than 300 samples; and one update of the series either replaces its
    last sample (nothing is evicted) or appends the new sample and evicts
    from the front only: the old series followed by the new sample is the
    evicted samples followed by the new series, where just as many
    samples are evicted as exceed 300. *)
Theorem capacity_bound_fifo_eviction :
  (forall evs, (length (peopleCountHistory (run evs initialState)) <= 300)%nat) /\
  (forall now cnt prev,
     let newPoint := mkPoint now cnt in
     (exists lastPoint, last prev = Some lastPoint /\
        within_jitter now lastPoint = true /\
        updateHistory now cnt prev = slice_but_last prev ++ [newPoint] /\
        length (updateHistory now cnt prev) = length prev) \/
     (exists evicted,
        prev ++ [newPoint] = evicted ++ updateHistory now cnt prev /\
        length evicted = (length prev + 1 - 300)%nat)).
Proof.
  split.
  - intros evs. apply run_length. simpl. lia.
  - intros now cnt prev newPoint.
    assert (Happ : exists evicted,
               prev ++ [newPoint] = evicted ++ append_capped prev newPoint /\
               length evicted = (length prev + 1 - 300)%nat).
    { exists (take (length prev + 1 - 300) (prev ++ [newPoint])). split.
      - by rewrite append_capped_drop, take_drop.
      - rewrite length_take, length_app. simpl. lia. }
    destruct (last_inv prev) as [->|(init & lp & -> & Hlast)].
    + right. exact Happ.
    + destruct (within_jitter now lp) eqn:Hj.
      * left. exists lp. rewrite updateHistory_snoc, Hj, slice_but_last_snoc.
        repeat split; [done|]. rewrite !length_app. done.
      * right. rewrite updateHistory_snoc, Hj. exact Happ.
Qed.

(** Detection is turned on at 0 and 301 counts arrive one second apart:
    300 samples are retained, the one of the first second is gone. *)
Example capacity_after_301_samples :
  let evs := ToggleDetection 0 ::
             map (fun k => CountChange true (1000 * Z.of_nat k) 1) (seq 1 301) in
  let h := peopleCountHistory (run evs initialState) in
  length h = 300%nat /\ head h = Some (mkPoint 2000 1) /\
  last h = Some (mkPoint 301000 1).
Proof. vm_compute. repeat split. Qed.

(** The jitter window is open at 50: a distance of 49 replaces, a
    distance of exactly 50 appends. *)
Example jitter_window_boundary :
  updateHistory 1049 3 [mkPoint 1000 2] = [mkPoint 1049 3] /\
  updateHistory 1050 3 [mkPoint 1000 2] = [mkPoint 1000 2; mkPoint 1050 3].
Proof. split; reflexivity. Qed.

Lemma updateHistory_jitter now cnt prev lastPoint :
  last prev = Some lastPoint ->
  (Z.abs (now - timestamp lastPoint) < 50 ->
     updateHistory now cnt prev = slice_but_last prev ++ [mkPoint now cnt] /\
     length (updateHistory now cnt prev) = length prev) /\
  (50 <= Z.abs (now - timestamp lastPoint) ->
     exists older,
       updateHistory now cnt prev = older ++ [lastPoint; mkPoint now cnt]).
Proof.
  intros Hlast.
  destruct (last_inv prev) as [->|(init & lp & -> & Hlp)]; [done|].
  assert (lp = lastPoint) as -> by congruence.
  rewrite updateHistory_snoc, slice_but_last_snoc. unfold within_jitter.
  split; intros Hgap.
  - destruct (Z.ltb_spec (Z.abs (now - timestamp lastPoint)) 50); [|lia].
    split; [done|]. by rewrite !length_app.
  - destruct (Z.ltb_spec (Z.abs (now - timestamp lastPoint)) 50); [lia|].
    rewrite append_capped_drop. rewrite <- (assoc_L (++)). simpl.
    exists (drop (length (init ++ [lastPoint]) + 1 - 300) init).
    rewrite drop_app_le; [done|]. rewrite length_app. simpl. lia.
Qed.

(** C6.  A count event that [handlePeopleCountChange] takes through a
    callback created while detection was enabled, on a series that has a
    last sample: the badge shows the new count; when the event is within
    the jitter window of the last sample (the distance of the two
    timestamps is below 50), the new sample takes the place of the last
    one, so the series ends with it and keeps its length; when the
    distance is 50 or more (200, say), the new sample is appended and the
    series ends with the former last sample followed by the new one.
    Nothing else of the App state changes. *)
Theorem jitter_replace_or_append st now cnt lastPoint :
  last (peopleCountHistory st) = Some lastPoint ->
  let st' := handlePeopleCountChange true now cnt st in
  peopleCount st' = cnt /\
  last (peopleCountHistory st') = Some (mkPoint now cnt) /\
  (Z.abs (now - timestamp lastPoint) < 50 ->
     peopleCountHistory st' =
       slice_but_last (peopleCountHistory st) ++ [mkPoint now cnt] /\
     length (peopleCountHistory st') = length (peopleCountHistory st)) /\
  (50 <= Z.abs (now - timestamp lastPoint) ->
     exists older,
       peopleCountHistory st' = older ++ [lastPoint; mkPoint now cnt]) /\
  isPeopleDetectionEnabled st' = isPeopleDetectionEnabled st /\
  detectionSessionId st' = detectionSessionId st /\
  activeVideoId st' = activeVideoId st /\
  currentTime st' = currentTime st.
Proof.
  intros Hlast st'. split; [done|]. split; [apply updateHistory_last|].
  destruct (updateHistory_jitter now cnt _ _ Hlast) as [Hin Hout].
  split; [exact Hin|]. split; [exact Hout|]. done.
Qed.

(** Detection is turned on and a count of 2 is stored at 1000.  A count
    of 3 arriving at 1030 replaces it; arriving at 1200 it is appended. *)
Lemma jitter_replace_or_append_witness :
  let st := run [ToggleDetection 0; CountChange true 1000 2] initialState in
  peopleCountHistory st = [mkPoint 1000 2] /\
  peopleCountHistory (handlePeopleCountChange true 1030 3 st) = [mkPoint 1030 3] /\
  peopleCount (handlePeopleCountChange true 1030 3 st) = 3 /\
  exists older,
    peopleCountHistory (handlePeopleCountChange true 1200 3 st) =
      older ++ [mkPoint 1000 2; mkPoint 1200 3].
Proof.
  intros st. split; [reflexivity|].
  destruct (jitter_replace_or_append st 1030 3 (mkPoint 1000 2) eq_refl)
    as (Hcount & _ & Hin & _).
  destruct (jitter_replace_or_append st 1200 3 (mkPoint 1000 2) eq_refl)
    as (_ & _ & _ & Hout & _).
  split; [by apply Hin|]. split; [exact Hcount|].
  apply Hout. simpl. lia.
Defined.

(** *** Order and spacing of the stored timestamps *)

Lemma spaced_tail p h : spaced (p :: h) -> spaced h.
Proof. simpl. tauto. Qed.

Lemma spaced_drop k h : spaced h -> spaced (drop k h).
Proof.
  revert h. induction k as [|k IH]; intros [|p h] Hs; try done.
  simpl. apply IH. by eapply spaced_tail.
Qed.

Lemma spaced_snoc h q :
  spaced (h ++ [q]) <->
  spaced h /\ (forall p, last h = Some p -> timestamp p + 50 <= timestamp q).
Proof.
  induction h as [|p h IH].
  - simpl. split; [|tauto]. intros _. split; [done|]. intros p Hp. discriminate.
  - destruct h as [|p' h].
    + simpl. split.
      * intros [Hpq _]. split; [done|]. intros p0 [= <-]. done.
      * intros [_ Hq]. split; [|done]. by apply Hq.
    + change (spaced ((p :: p' :: h) ++ [q])) with
        (timestamp p + 50 <= timestamp p' /\ spaced ((p' :: h) ++ [q])).
      change (spaced (p :: p' :: h)) with
        (timestamp p + 50 <= timestamp p' /\ spaced (p' :: h)).
      change (last (p :: p' :: h)) with (last (p' :: h)).
      rewrite IH. tauto.
Qed.

Lemma spaced_sorted h : spaced h -> sorted_ts h.
Proof.
  induction h as [|p h IH]; [done|].
  intros [Hhd Htl]. split; [|by apply IH].
  destruct h as [|q h]; [done|]. lia.
Qed.

Lemma spaced_lookup h i j p q :
  spaced h -> (i < j)%nat -> h !! i = Some p -> h !! j = Some q ->
  timestamp p + 50 <= timestamp q.
Proof.
  revert i j p. induction h as [|p0 h IH]; intros i j p Hs Hij Hi Hj; [done|].
  destruct j as [|j]; [lia|]. simpl in Hj.
  destruct i as [|i].
  - injection Hi as <-. destruct h as [|q0 h]; [done|].
    destruct Hs as [Hhd Htl]. destruct j as [|j].
    + injection Hj as <-. done.
    + assert (timestamp q0 + 50 <= timestamp q); [|lia].
      apply (IH 0%nat (S j) q0); [done|lia|done|done].
  - simpl in Hi. apply (IH i j p); [by eapply spaced_tail|lia|done|done].
Qed.

Lemma settled_by_nil t : settled_by t [].
Proof. split; [done|]. intros p Hp. discriminate. Qed.

Lemma settled_by_mono t t' h : t <= t' -> settled_by t h -> settled_by t' h.
Proof. intros Ht [Hs Hl]. split; [done|]. intros p Hp. specialize (Hl p Hp). lia. Qed.

Lemma updateHistory_settled t0 now cnt prev :
  t0 <= now -> settled_by t0 prev -> settled_by now (updateHistory now cnt prev).
Proof.
  intros Hnow [Hs Hl]. split.
  2:{ intros p. rewrite updateHistory_last. intros [= <-]. simpl. lia. }
  destruct (last_inv prev) as [->|(init & lp & -> & Hlp)]; [done|].
  specialize (Hl lp Hlp). apply spaced_snoc in Hs as [Hinit Hgap].
  rewrite updateHistory_snoc. unfold within_jitter.
  destruct (Z.ltb_spec (Z.abs (now - timestamp lp)) 50) as [Hin|Hout].
  - apply spaced_snoc. split; [done|]. intros p Hp. specialize (Hgap p Hp).
    simpl. lia.
  - rewrite append_capped_drop. apply spaced_drop.
    apply spaced_snoc. split.
    + apply spaced_snoc. by split.
    + intros p. rewrite last_snoc. intros [= <-]. simpl. lia.
Qed.

Lemma run_settled evs : forall st t0,
  settled_by t0 (peopleCountHistory st) ->
  monotone_from t0 (clocks evs) ->
  spaced (peopleCountHistory (run evs st)).
Proof.
  induction evs as [|ev evs IH]; intros st t0 Hst Hmono; [apply Hst|].
  destruct ev as [captured now cnt|now|id]; simpl in Hmono; simpl.
  - destruct Hmono as [Hle Hmono]. apply (IH _ now); [|done]. simpl.
    destruct captured.
    + by eapply updateHistory_settled.
    + by eapply settled_by_mono.
  - destruct Hmono as [Hle Hmono]. apply (IH _ now); [|done]. simpl.
    destruct (negb (isPeopleDetectionEnabled st)).
    + apply settled_by_nil.
    + by eapply settled_by_mono.
  - apply (IH _ t0); [|done]. simpl. apply settled_by_nil.
Qed.

(** C10.  When the clock readings of the events never go back, the
    retained series has its timestamps in non-decreasing order, any two
    consecutive samples are at least 50 apart, and so a sample stored
    further back in the series is strictly older. *)
Theorem history_sorted_and_spaced evs t0 :
  monotone_from t0 (clocks evs) ->
  let h := peopleCountHistory (run evs initialState) in
  sorted_ts h /\ spaced h /\
  (forall i j p q, (i < j)%nat -> h !! i = Some p -> h !! j = Some q ->
     timestamp p < timestamp q).
Proof.
  intros Hmono h.
  assert (Hs : spaced h).
  { apply (run_settled evs initialState t0); [apply settled_by_nil|done]. }
  split; [by apply spaced_sorted|]. split; [done|].
  intros i j p q Hij Hi Hj.
  pose proof (spaced_lookup h i j p q Hs Hij Hi Hj). lia.
Qed.

Lemma history_sorted_and_spaced_witness :
  let h := peopleCountHistory
             (run [ToggleDetection 0; CountChange true 10 1; CountChange true 30 2;
                   CountChange true 100 3; CountChange true 700 1] initialState) in
  h = [mkPoint 30 2; mkPoint 100 3; mkPoint 700 1] /\ sorted_ts h /\ spaced h.
Proof.
  split; [reflexivity|].
  pose proof (history_sorted_and_spaced
    [ToggleDetection 0; CountChange true 10 1; CountChange true 30 2;
     CountChange true 100 3; CountChange true 700 1] 0) as H.
  simpl in H.
  destruct H as (Hsorted & Hspaced & _); [lia|].
  split; [exact Hsorted|exact Hspaced].
Defined.

(** *** Pausing, sessions and resets *)

Lemma run_app evs1 evs2 st : run (evs1 ++ evs2) st = run evs2 (run evs1 st).
Proof. apply foldl_app. Qed.

Lemma countEvents_keep samples : forall st,
  isPeopleDetectionEnabled (run (countEvents samples) st) = isPeopleDetectionEnabled st /\
  detectionSessionId (run (countEvents samples) st) = detectionSessionId st.
Proof.
  induction samples as [|[[captured now] cnt] samples IH]; intros st; [done|].
  simpl. destruct (IH (handlePeopleCountChange captured now cnt st)) as [-> ->]. done.
Qed.

Lemma sessionName_inj t t' : sessionName t = sessionName t' -> t = t'.
Proof.
  unfold sessionName. intros H.
  apply (inj (String.app "session_")) in H. by apply (inj pretty) in H.
Qed.

(** Two runs against the claim as it stands.  A tab change empties a
    series that has a sample and leaves the session identifier as it was:
    the series is cleared without a new session.  And the detection loop
    started while detection was on, which the effect's cleanup does not
    stop while it waits for its timeout or for [model.detect], reports its
    next count through the callback it captured: the sample is stored
    although detection has been turned off. *)
Lemma series_cleared_by_tab_change_and_fed_while_off :
  let st := run [ToggleDetection 1000; CountChange true 1500 2] initialState in
  let st' := step st (TabChange "backyard") in
  let off := step st (ToggleDetection 2000) in
  let late := step off (CountChange true 2100 3) in
  (peopleCountHistory st = [mkPoint 1500 2] /\
   peopleCountHistory st' = [] /\
   detectionSessionId st' = detectionSessionId st) /\
  (isPeopleDetectionEnabled off = false /\
   isPeopleDetectionEnabled late = false /\
   peopleCountHistory off = [mkPoint 1500 2] /\
   peopleCountHistory late = [mkPoint 1500 2; mkPoint 2100 3]).
Proof. repeat split. Qed.

(** C3 (amended).  A count event taken through a callback created while
    detection was disabled stores nothing: series, flag and session stay
    as they are.  Turning detection off keeps the series and the session;
    turning it on empties the series and names a new session after the
    clock; the session identifier changes only then; a series that has
    samples becomes empty only then or on a tab change, which empties it,
    turns detection off and keeps the session identifier.  And after
    turning detection on at [t0], any count events, turning it off, any
    further count events and turning it on again at another clock reading
    [t2], the series is empty under a session identifier other than the
    one of [t0]. *)
Theorem series_frozen_while_off_cleared_by_session_or_tab :
  (forall st now cnt,
     let st' := step st (CountChange false now cnt) in
     peopleCountHistory st' = peopleCountHistory st /\
     isPeopleDetectionEnabled st' = isPeopleDetectionEnabled st /\
     detectionSessionId st' = detectionSessionId st) /\
  (forall st now, isPeopleDetectionEnabled st = true ->
     let st' := step st (ToggleDetection now) in
     isPeopleDetectionEnabled st' = false /\
     peopleCountHistory st' = peopleCountHistory st /\
     detectionSessionId st' = detectionSessionId st) /\
  (forall st now, isPeopleDetectionEnabled st = false ->
     let st' := step st (ToggleDetection now) in
     isPeopleDetectionEnabled st' = true /\
     peopleCountHistory st' = [] /\
     detectionSessionId st' = sessionName now) /\
  (forall st ev, detectionSessionId (step st ev) <> detectionSessionId st ->
     exists now, ev = ToggleDetection now /\ isPeopleDetectionEnabled st = false) /\
  (forall st ev, peopleCountHistory st <> [] -> peopleCountHistory (step st ev) = [] ->
     (exists now, ev = ToggleDetection now /\ isPeopleDetectionEnabled st = false) \/
     (exists id, ev = TabChange id)) /\
  (forall st id,
     let st' := step st (TabChange id) in
     isPeopleDetectionEnabled st' = false /\
     peopleCountHistory st' = [] /\
     detectionSessionId st' = detectionSessionId st) /\
  (forall st t0 samples t1 later t2,
     isPeopleDetectionEnabled st = false -> t0 <> t2 ->
     let during := run (ToggleDetection t0 :: countEvents samples) st in
     let off := run (ToggleDetection t1 :: countEvents later) during in
     let st' := step off (ToggleDetection t2) in
     detectionSessionId during = sessionName t0 /\
     isPeopleDetectionEnabled off = false /\
     detectionSessionId off = sessionName t0 /\
     isPeopleDetectionEnabled st' = true /\
     peopleCountHistory st' = [] /\
     detectionSessionId st' = sessionName t2 /\
     detectionSessionId st' <> detectionSessionId during).
Proof.
  repeat apply conj.
  - intros st now cnt. done.
  - intros st now Hon. simpl. by rewrite Hon.
  - intros st now Hoff. simpl. by rewrite Hoff.
  - intros st [captured now cnt|now|id] Hne; simpl in Hne; [done| |done].
    exists now. split; [done|].
    destruct (isPeopleDetectionEnabled st); [done|done].
  - intros st [captured now cnt|now|id] Hne Hempty; simpl in Hempty.
    + destruct captured; [|done].
      pose proof (updateHistory_last now cnt (peopleCountHistory st)) as Hl.
      rewrite Hempty in Hl. discriminate.
    + left. exists now. split; [done|].
      destruct (isPeopleDetectionEnabled st); [done|done].
    + right. by exists id.
  - intros st id. done.
  - intros st t0 samples t1 later t2 Hoff Hne during off st'.
    assert (Hd : isPeopleDetectionEnabled during = true /\
                 detectionSessionId during = sessionName t0).
    { unfold during. change (ToggleDetection t0 :: countEvents samples)
        with ([ToggleDetection t0] ++ countEvents samples).
      rewrite run_app.
      destruct (countEvents_keep samples (run [ToggleDetection t0] st)) as [-> ->].
      simpl. by rewrite Hoff. }
    destruct Hd as [Hon Hid].
    assert (Ho : isPeopleDetectionEnabled off = false /\
                 detectionSessionId off = sessionName t0).
    { unfold off. change (ToggleDetection t1 :: countEvents later)
        with ([ToggleDetection t1] ++ countEvents later).
      rewrite run_app.
      destruct (countEvents_keep later (run [ToggleDetection t1] during)) as [-> ->].
      simpl. by rewrite Hon. }
    destruct Ho as [Hoff' Hid']. unfold st'. simpl. rewrite Hoff'. simpl.
    rewrite Hid. repeat split; [done..|]. intros Heq.
    apply sessionName_inj in Heq. congruence.
Qed.

(** Scenario D: ten samples are accumulated, detection is turned off and
    on again. *)
Lemma series_frozen_while_off_cleared_by_session_or_tab_witness :
  let samples := [(true, 1000, 1); (true, 2000, 2); (true, 3000, 2);
                  (true, 4000, 3); (true, 5000, 1); (true, 6000, 0);
                  (true, 7000, 2); (true, 8000, 4); (true, 9000, 4);
                  (true, 10000, 3)] in
  let during := run (ToggleDetection 500 :: countEvents samples) initialState in
  let off := run (ToggleDetection 10500 :: countEvents []) during in
  let st' := step off (ToggleDetection 11000) in
  length (peopleCountHistory during) = 10%nat /\
  peopleCountHistory off = peopleCountHistory during /\
  peopleCountHistory st' = [] /\
  detectionSessionId st' = "session_11000" /\
  detectionSessionId st' <> detectionSessionId during.
Proof.
  intros samples during off st'.
  destruct series_frozen_while_off_cleared_by_session_or_tab
    as (_ & _ & _ & _ & _ & _ & HD).
  destruct (HD initialState 500 samples 10500 [] 11000) as (_ & _ & _ & _ & Hh & Hid & Hne).
  - reflexivity.
  - lia.
  - split; [reflexivity|]. split; [reflexivity|].
    split; [exact Hh|]. split; [exact Hid|exact Hne].
Defined.

End AppSpec.

(** ** People detection *)

Module PeopleDetectionSpec.
Import PeopleDetection.

Lemma isPerson_spec d :
  isPerson d = true <-> class d = "person" /\ (1 # 2 < score d)%Q.
Proof.
  unfold isPerson. rewrite andb_true_iff, bool_decide_eq_true, negb_true_iff.
  split; intros [Hc Hs]; (split; [done|]).
  - apply Qnot_le_lt. intros Hle. apply Qle_bool_iff in Hle. congruence.
  - destruct (Qle_bool (score d) (1 # 2)) eqn:E; [|done].
    apply Qle_bool_iff in E. by apply Qle_not_lt in E.
Qed.

Lemma filter_drop_rejected (before after : list Detection) d :
  isPerson d = false ->
  List.filter isPerson (before ++ d :: after) = List.filter isPerson (before ++ after).
Proof.
  intros Hd. rewrite !List.filter_app. simpl. by rewrite Hd.
Qed.

(** C8.  What a tick keeps of the model's predictions is their filter by
    [isPerson]: a prediction is kept exactly when it is one of them, of
    class person and of score above 1/2; so one of another class, or of
    score at most 1/2, is not kept.  The count reported is the number
    kept, the canvas is what [drawDetections] makes of the kept ones
    (each painted by its own three calls when the overlay shows, nothing
    painted otherwise), and a prediction that fails the test changes
    nothing of the tick: state, log and canvas are as if it had not been
    predicted. *)
Theorem rejected_predictions_not_drawn_not_counted video predictions l :
  let l' := postProcess video predictions l in
  detections l' = List.filter isPerson predictions /\
  (forall d, In d (detections l') <->
     In d predictions /\ class d = "person" /\ (1 # 2 < score d)%Q) /\
  (forall d, class d <> "person" \/ (score d <= 1 # 2)%Q -> ~ In d (detections l')) /\
  log l' = log l ++
    (if hasCountListener l then [CountReported (length (detections l'))] else []) /\
  canvasRef l' =
    drawDetections (showOverlay l) (Some video) (detections l') (canvasRef l) /\
  (forall canvas canvas', canvasRef l = Some canvas -> context2d canvas = true ->
     canvasRef l' = Some canvas' ->
     exists scaleX scaleY,
       painted canvas' =
         if showOverlay l then flat_map (drawOne scaleX scaleY) (detections l') else []) /\
  (forall before d after, predictions = before ++ d :: after -> isPerson d = false ->
     l' = postProcess video (before ++ after) l).
Proof.
  intros l'. repeat apply conj; try done.
  - intros d. simpl. rewrite List.filter_In, isPerson_spec. tauto.
  - intros d Hbad Hin. simpl in Hin. apply List.filter_In in Hin as [_ Hp].
    apply isPerson_spec in Hp as [Hc Hs]. destruct Hbad as [Hbad|Hbad]; [done|].
    by apply Qle_not_lt in Hbad.
  - intros canvas canvas' Hc Hctx. unfold l'. simpl. rewrite Hc. simpl.
    rewrite Hctx. simpl. intros Hc'.
    exists (inject_Z (width canvas) / inject_Z (videoWidth video))%Q,
           (inject_Z (height canvas) / inject_Z (videoHeight video))%Q.
    destruct (showOverlay l); simpl in Hc'; injection Hc' as <-; done.
  - intros before d after -> Hd. unfold l', postProcess.
    by rewrite (filter_drop_rejected before after d Hd).
Qed.

Lemma rejected_predictions_not_drawn_not_counted_witness :
  let video := mkVideo 4 false false 12 640 480 in
  let canvas := mkCanvas 320 240 true [] in
  let person := mkDetection (10, 20, 100, 200)%Q "person" (9 # 10) in
  let faint := mkDetection (50, 60, 30, 40)%Q "person" (3 # 10) in
  let dog := mkDetection (0, 0, 10, 10)%Q "dog" (95 # 100) in
  let l := mkLoop true true 0 [] [] (Some canvas) [] in
  let l' := postProcess video [faint; person; dog] l in
  detections l' = [person] /\
  log l' = [CountReported 1] /\
  l' = postProcess video [person; dog] l.
Proof.
  intros video canvas person faint dog l l'.
  split; [reflexivity|]. split; [reflexivity|].
  destruct (rejected_predictions_not_drawn_not_counted video [faint; person; dog] l)
    as (_ & _ & _ & _ & _ & _ & Hdrop).
  apply (Hdrop [] faint [person; dog]); reflexivity.
Defined.

(** *** The overlay *)

Lemma drawDetections_visible video canvas dets :
  context2d canvas = true ->
  drawDetections true (Some video) dets (Some canvas) =
    Some (paint
            (flat_map
               (drawOne (inject_Z (width canvas) / inject_Z (videoWidth video))
                        (inject_Z (height canvas) / inject_Z (videoHeight video))) dets)
            (clearRect canvas)).
Proof. intros Hctx. unfold drawDetections. by rewrite Hctx. Qed.

Lemma overlayEffect_off enabled video canvas dets :
  context2d canvas = true ->
  overlayEffect enabled false (Some video) dets (Some canvas) = Some (clearRect canvas).
Proof.
  intros Hctx. unfold overlayEffect. rewrite Hctx.
  by rewrite orb_true_r.
Qed.

Lemma overlayEffect_on video canvas dets :
  context2d canvas = true ->
  overlayEffect true true (Some video) dets (Some (clearRect canvas)) =
    drawDetections true (Some video) dets (Some canvas).
Proof.
  intros Hctx. unfold overlayEffect, drawDetections.
  destruct dets as [|d dets]; simpl; rewrite Hctx; done.
Qed.

Lemma drawOne_shape scaleX scaleY d :
  exists x y w h cx cy (pct : Z),
    drawOne scaleX scaleY d =
      [StrokeRect x y w h; FillCircle cx cy 5;
       FillText ("Person " +:+ pretty pct +:+ "%") x (y - 5)%Q].
Proof.
  unfold drawOne. destruct (bbox d) as [[[x y] w] h]. by repeat eexists.
Qed.

Lemma drawOne_length scaleX scaleY d : length (drawOne scaleX scaleY d) = 3%nat.
Proof. destruct (drawOne_shape scaleX scaleY d) as (?&?&?&?&?&?&?&->). done. Qed.

Lemma flat_map_drawOne_length scaleX scaleY dets :
  length (flat_map (drawOne scaleX scaleY) dets) = (3 * length dets)%nat.
Proof.
  induction dets as [|d dets IH]; [done|].
  simpl. rewrite length_app, drawOne_length, IH. lia.
Qed.

Lemma flat_map_drawOne_lookup scaleX scaleY dets : forall i d k,
  dets !! i = Some d -> (k < 3)%nat ->
  flat_map (drawOne scaleX scaleY) dets !! (3 * i + k)%nat =
    drawOne scaleX scaleY d !! k.
Proof.
  induction dets as [|d0 dets IH]; intros i d k Hi Hk; [done|].
  cbn [flat_map]. destruct i as [|i].
  - injection Hi as ->. rewrite lookup_app_l by (rewrite drawOne_length; lia).
    done.
  - cbn [lookup list_lookup] in Hi.
    rewrite lookup_app_r by (rewrite drawOne_length; lia).
    rewrite drawOne_length.
    replace (3 * S i + k - 3)%nat with (3 * i + k)%nat by lia.
    by apply IH.
Qed.

(** C9.  With detection enabled and a canvas that has a 2D context:
    turning the overlay off leaves the canvas with nothing painted, and
    it stays so when the effect or a draw of that render runs again;
    turning the overlay on again with the same detections paints, on the
    cleared canvas, the three calls of each detection once and in order
    (its rectangle, the circle of radius 5 and the label [Person n%] at
    the rectangle's corner), three calls per detection and no other,
    which is the canvas a visible draw of these detections had left; so
    off and on again brings back the canvas as it was drawn. *)
Theorem overlay_off_on_redraws_last_detections video canvas dets :
  context2d canvas = true ->
  let scaleX := (inject_Z (width canvas) / inject_Z (videoWidth video))%Q in
  let scaleY := (inject_Z (height canvas) / inject_Z (videoHeight video))%Q in
  let off := overlayEffect true false (Some video) dets (Some canvas) in
  let on := overlayEffect true true (Some video) dets off in
  off = Some (clearRect canvas) /\
  overlayEffect true false (Some video) dets off = off /\
  drawDetections false (Some video) dets off = off /\
  on = Some (paint (flat_map (drawOne scaleX scaleY) dets) (clearRect canvas)) /\
  on = drawDetections true (Some video) dets (Some canvas) /\
  (exists redrawn, on = Some redrawn /\
     length (painted redrawn) = (3 * length dets)%nat /\
     forall i d, dets !! i = Some d ->
       exists x y w h cx cy (pct : Z),
         painted redrawn !! (3 * i)%nat = Some (StrokeRect x y w h) /\
         painted redrawn !! (3 * i + 1)%nat = Some (FillCircle cx cy 5) /\
         painted redrawn !! (3 * i + 2)%nat =
           Some (FillText ("Person " +:+ pretty pct +:+ "%") x (y - 5)%Q)) /\
  (forall shown, drawDetections true (Some video) dets (Some canvas) = Some shown ->
     overlayEffect true true (Some video) dets
       (overlayEffect true false (Some video) dets (Some shown)) = Some shown).
Proof.
  intros Hctx scaleX scaleY off on.
  assert (Hoff : off = Some (clearRect canvas)) by by apply overlayEffect_off.
  assert (Hon : on = drawDetections true (Some video) dets (Some canvas)).
  { unfold on. rewrite Hoff. by apply overlayEffect_on. }
  split_and!.
  - done.
  - rewrite Hoff.
    by rewrite (overlayEffect_off true video (clearRect canvas) dets Hctx).
  - rewrite Hoff. unfold drawDetections. simpl. by rewrite Hctx.
  - rewrite Hon. by apply drawDetections_visible.
  - done.
  - rewrite Hon, drawDetections_visible by done. eexists. split; [done|].
    simpl. split; [apply flat_map_drawOne_length|].
    intros i d Hi.
    destruct (drawOne_shape scaleX scaleY d) as (x&y&w&h&cx&cy&pct&Hd).
    exists x, y, w, h, cx, cy, pct.
    pose proof (flat_map_drawOne_lookup scaleX scaleY dets i d 0 Hi) as H0.
    pose proof (flat_map_drawOne_lookup scaleX scaleY dets i d 1 Hi) as H1.
    pose proof (flat_map_drawOne_lookup scaleX scaleY dets i d 2 Hi) as H2.
    rewrite Hd in H0, H1, H2.
    replace (3 * i + 0)%nat with (3 * i)%nat in H0 by lia.
    split; [apply H0; lia|]. split; [apply H1; lia|apply H2; lia].
  - intros shown Hshown. rewrite drawDetections_visible in Hshown by done.
    injection Hshown as <-.
    set (shown := paint _ (clearRect canvas)).
    assert (Hshown : context2d shown = true) by exact Hctx.
    rewrite (overlayEffect_off true video shown dets Hshown).
    rewrite (overlayEffect_on video shown dets Hshown).
    rewrite (drawDetections_visible video shown dets Hshown). done.
Qed.

(** Two people drawn on a canvas half the size of the video: the overlay
    is turned off and on again. *)
Lemma overlay_off_on_redraws_last_detections_witness :
  let video := mkVideo 4 false false 12 640 480 in
  let dets := [mkDetection (10, 20, 100, 200)%Q "person" (3 # 4);
               mkDetection (300, 40, 80, 160)%Q "person" (7 # 8)] in
  let shown := drawDetections true (Some video) dets (Some (mkCanvas 320 240 true [])) in
  let off := overlayEffect true false (Some video) dets shown in
  let on := overlayEffect true true (Some video) dets off in
  off = Some (mkCanvas 320 240 true []) /\ on = shown /\
  (map reduced ∘ painted) <$> on =
    Some [StrokeRect 5 10 50 100; FillCircle 30 60 5; FillText "Person 75%" 5 5;
          StrokeRect 150 20 40 80; FillCircle 170 60 5; FillText "Person 88%" 150 15].
Proof.
  intros video dets shown off on.
  destruct (overlay_off_on_redraws_last_detections video (mkCanvas 320 240 true []) dets)
    as (_ & _ & _ & _ & _ & _ & Hback); [reflexivity|].
  split; [reflexivity|].
  assert (Hon : on = shown).
  { destruct shown as [c|] eqn:E; [|discriminate E]. apply Hback. exact E. }
  split; [exact Hon|]. rewrite Hon. reflexivity.
Defined.

(** *** Loading the model *)

Lemma fallbackLoad_calls env st :
  exists rest, (fallbackLoad env st).2 = SetBackend CPU :: rest /\
    cpuAttempts rest = 0%nat /\ webglAttempts rest = 0%nat.
Proof.
  unfold fallbackLoad.
  destruct (cpuReady env) as [[]|m1].
  - destruct (cpuLoad env) as [m|m2].
    + destruct (negb (isMounted env AfterFallbackLoad)); by eexists.
    + destruct (negb (isMounted env InFallbackCatch)); by eexists.
  - destruct (negb (isMounted env InFallbackCatch)); by eexists.
Qed.

Lemma fallbackLoad_fails env st :
  isMounted env InFallbackCatch = true -> cpuFails env = true ->
  exists m, m <> "" /\
    (fallbackLoad env st).1 =
      {| model := model st; isLoading := false; modelLoadError := Some m |}.
Proof.
  intros Hm Hf. unfold fallbackLoad, cpuFails in *. rewrite Hm. simpl.
  assert (Hmsg : forall message,
            message_or message "Failed to load detection model with fallback" <> "").
  { intros [m|]; simpl; [|done]. by case_bool_decide. }
  destruct (cpuReady env) as [[]|m1]; [destruct (cpuLoad env) as [m|m2]|];
    try done; simpl; eexists; (split; [apply Hmsg|done]).
Qed.

Lemma init_calls env st :
  isMounted env AtStart = true ->
  exists rest, (initTensorFlowAndLoadModel env st).2 = SetBackend WebGL :: TfReady :: rest /\
    webglAttempts rest = 0%nat /\
    (cpuAttempts rest <= 1)%nat /\
    (cpuAttempts rest = 1%nat -> webglFails env = true) /\
    (webglFails env = true -> isMounted env InCatch = true -> cpuAttempts rest = 1%nat).
Proof.
  intros Hstart. unfold initTensorFlowAndLoadModel, webglFails. rewrite Hstart. simpl.
  set (st2 m := {| model := model st; isLoading := true;
                   modelLoadError := Some (message_or m "Failed to load detection model") |}).
  destruct (webglReady env) as [[]|m1]; [destruct (webglLoad env) as [m|m2]|]; simpl.
  - destruct (negb (isMounted env AfterLoad)); eexists; (split; [done|]);
      repeat split; try done; unfold cpuAttempts; simpl; lia.
  - destruct (isMounted env InCatch); simpl.
    + destruct (fallbackLoad_calls env (st2 m2)) as (rest & Hrest & Hc & Hw).
      fold (st2 m2). destruct (fallbackLoad env (st2 m2)) as [st3 more].
      simpl in *. subst more. eexists; split; [done|].
      unfold cpuAttempts, webglAttempts in *. simpl. rewrite Hc, Hw.
      repeat split; try done; lia.
    + eexists; split; [done|]. unfold cpuAttempts, webglAttempts. simpl.
      repeat split; try done; lia.
  - destruct (isMounted env InCatch); simpl.
    + destruct (fallbackLoad_calls env (st2 m1)) as (rest & Hrest & Hc & Hw).
      fold (st2 m1). destruct (fallbackLoad env (st2 m1)) as [st3 more].
      simpl in *. subst more. eexists; split; [done|].
      unfold cpuAttempts, webglAttempts in *. simpl. rewrite Hc, Hw.
      repeat split; try done; lia.
    + eexists; split; [done|]. unfold cpuAttempts, webglAttempts. simpl.
      repeat split; try done; lia.
Qed.

Lemma init_both_fail env st :
  (forall c, isMounted env c = true) ->
  webglFails env = true -> cpuFails env = true ->
  exists m, m <> "" /\
    (initTensorFlowAndLoadModel env st).1 =
      {| model := model st; isLoading := false; modelLoadError := Some m |}.
Proof.
  intros Hm Hw Hc. unfold initTensorFlowAndLoadModel, webglFails in *.
  rewrite !Hm. simpl.
  set (st2 m := {| model := model st; isLoading := true;
                   modelLoadError := Some (message_or m "Failed to load detection model") |}).
  destruct (webglReady env) as [[]|m1]; [destruct (webglLoad env) as [m|m2]|];
    try done.
  - fold (st2 m2). destruct (fallbackLoad_fails env (st2 m2) (Hm _) Hc) as (m & Hne & Hst).
    destruct (fallbackLoad env (st2 m2)) as [st3 more]. simpl in *. by exists m.
  - fold (st2 m1). destruct (fallbackLoad_fails env (st2 m1) (Hm _) Hc) as (m & Hne & Hst).
    destruct (fallbackLoad env (st2 m1)) as [st3 more]. simpl in *. by exists m.
Qed.

(** A model is resident after a first load; detection is turned off and
    on again.  The second enable loads again (on an environment where the
    load works), and where both backends fail then, the error shows while
    the loop starts all the same, on the model of the first load. *)
Lemma reenable_loads_again_with_resident_model :
  let always := fun _ : Checkpoint => true in
  let first := mkLoadEnv (Resolved ()) (Resolved 1%nat) (Resolved ()) (Resolved 2%nat) always in
  let second := mkLoadEnv (Resolved ()) (Resolved 3%nat) (Resolved ()) (Resolved 4%nat) always in
  let broken := mkLoadEnv (Rejected (Some "no WebGL")) (Resolved 5%nat)
                          (Rejected None) (Resolved 6%nat) always in
  let video := mkVideo 4 false false 12 640 480 in
  let on1 := mount true first in
  let off := toggleEnabled second on1 in
  let on2 := toggleEnabled second off in
  let on2' := toggleEnabled broken off in
  model (loadState off) = Some 1%nat /\
  tfCalls off = [SetBackend WebGL; TfReady; CocoSsdLoad] /\
  tfCalls on2 = [SetBackend WebGL; TfReady; CocoSsdLoad;
                 SetBackend WebGL; TfReady; CocoSsdLoad] /\
  model (loadState on2) = Some 3%nat /\
  showsLoadError true (loadState on2') = true /\
  model (loadState on2') = Some 1%nat /\
  loopStarts true (Some video) (loadState on2') = true.
Proof. repeat split. Qed.

(** C4 (amended).  A run of the loader that gets past its first check
    starts with the WebGL backend, which it tries once; it tries the CPU
    backend at most once, only when the WebGL attempt has failed, and
    (while the component stays mounted) whenever it has.  When both fail
    the model is left as it was, loading is over and the load error shows;
    with no model resident before, the detection loop then does not
    start.  Every change of detection from off to on runs the loader,
    whether a model is resident or not; a change from on to off makes no
    TensorFlow call and leaves the loading state alone. *)
Theorem load_webgl_then_cpu_once_on_every_enable :
  (forall env st, isMounted env AtStart = true ->
     let calls := (initTensorFlowAndLoadModel env st).2 in
     (exists rest, calls = SetBackend WebGL :: TfReady :: rest) /\
     webglAttempts calls = 1%nat /\
     (cpuAttempts calls <= 1)%nat /\
     (cpuAttempts calls = 1%nat -> webglFails env = true) /\
     (webglFails env = true -> isMounted env InCatch = true ->
        cpuAttempts calls = 1%nat)) /\
  (forall env st, (forall c, isMounted env c = true) ->
     webglFails env = true -> cpuFails env = true ->
     let st' := (initTensorFlowAndLoadModel env st).1 in
     model st' = model st /\ isLoading st' = false /\
     showsLoadError true st' = true /\
     (model st = None -> forall video, loopStarts true video st' = false)) /\
  (forall env c, isEnabled c = false -> isMounted env AtStart = true ->
     let c' := toggleEnabled env c in
     isEnabled c' = true /\
     exists rest, tfCalls c' = tfCalls c ++ SetBackend WebGL :: TfReady :: rest) /\
  (forall env c, isEnabled c = true ->
     let c' := toggleEnabled env c in
     isEnabled c' = false /\ tfCalls c' = tfCalls c /\ loadState c' = loadState c).
Proof.
  repeat apply conj.
  - intros env st Hstart calls.
    destruct (init_calls env st Hstart) as (rest & Hcalls & Hw & Hle & Honly & Hwhen).
    unfold calls. rewrite Hcalls.
    unfold webglAttempts, cpuAttempts in *. simpl. rewrite Hw.
    split; [by exists rest|]. done.
  - intros env st Hm Hw Hc st'.
    destruct (init_both_fail env st Hm Hw Hc) as (m & Hne & Hst).
    unfold st'. rewrite Hst. simpl. repeat split.
    + unfold showsLoadError. simpl. by case_bool_decide.
    + intros Hnone video. unfold loopStarts. simpl. rewrite Hnone.
      case_bool_decide as Hs; [|done]. by destruct Hs.
  - intros env c Hoff Hstart c'. unfold c', toggleEnabled. rewrite Hoff. simpl.
    destruct (init_calls env (loadState c) Hstart) as (rest & Hcalls & _).
    destruct (initTensorFlowAndLoadModel env (loadState c)) as [st calls].
    simpl in *. subst calls. split; [done|]. by exists rest.
  - intros env c Hon c'. unfold c', toggleEnabled. rewrite Hon. simpl.
    rewrite app_nil_r. done.
Qed.

Lemma load_webgl_then_cpu_once_on_every_enable_witness :
  let always := fun _ : Checkpoint => true in
  let broken := mkLoadEnv (Rejected (Some "no WebGL")) (Resolved 5%nat)
                          (Resolved ()) (Rejected None) always in
  let c := mount true broken in
  tfCalls c = [SetBackend WebGL; TfReady; SetBackend CPU; CocoSsdLoad] /\
  showsLoadError true (loadState c) = true /\
  loopStarts true (Some (mkVideo 4 false false 12 640 480)) (loadState c) = false.
Proof.
  intros always broken c.
  destruct load_webgl_then_cpu_once_on_every_enable as (_ & Hfail & _ & _).
  destruct (Hfail broken (mkLoadState None true None)) as (_ & _ & Herr & Hloop);
    [reflexivity|reflexivity|reflexivity|].
  split; [reflexivity|]. split; [exact Herr|]. apply Hloop. reflexivity.
Defined.

(** *** The detection loop *)

Lemma endState_app busy since es1 es2 :
  endState busy since (es1 ++ es2) =
    endState (endState busy since es1).1 (endState busy since es1).2 es2.
Proof.
  revert busy since. induction es1 as [|[t v|t|n] es1 IH]; intros busy since; simpl; auto.
Qed.

Lemma paced_app busy since es1 es2 :
  paced busy since (es1 ++ es2) <->
  paced busy since es1 /\
  paced (endState busy since es1).1 (endState busy since es1).2 es2.
Proof.
  revert busy since. induction es1 as [|[t v|t|n] es1 IH]; intros busy since; simpl.
  - tauto.
  - rewrite IH. tauto.
  - rewrite IH. tauto.
  - apply IH.
Qed.

Lemma inFlight_paced busy since es :
  paced busy since es ->
  inFlight (if busy then 1 else 0) es = if (endState busy since es).1 then 1%nat else 0%nat.
Proof.
  revert busy since. induction es as [|[t v|t|n] es IH]; intros busy since Hp; simpl in *.
  - done.
  - destruct Hp as (-> & _ & Hp). apply (IH true since Hp).
  - destruct Hp as (-> & Hp). apply (IH false (Some t) Hp).
  - by apply IH.
Qed.

Lemma detectCalls_app es1 es2 :
  detectCalls (es1 ++ es2) = detectCalls es1 ++ detectCalls es2.
Proof. apply omap_app. Qed.

Lemma isPlaying_spec v :
  isPlaying v = true <-> paused v = false /\ ended v = false /\ (0 < currentTime v)%Q.
Proof.
  unfold isPlaying. rewrite !andb_true_iff, !negb_true_iff. split.
  - intros [[Hp He] Hc]. repeat split; try done.
    apply Qnot_le_lt. intros Hle. apply Qle_bool_iff in Hle. congruence.
  - intros (Hp & He & Hc). repeat split; try done.
    destruct (Qle_bool (currentTime v) 0) eqn:E; [|done].
    apply Qle_bool_iff in E. by apply Qle_not_lt in E.
Qed.

Lemma notReady_false v l :
  notReady v l = false <-> readyState v = 4 /\ is_Some (canvasRef l).
Proof.
  unfold notReady. rewrite orb_false_iff, !negb_false_iff, bool_decide_eq_true.
  by rewrite Z.eqb_eq.
Qed.

(** What one call of [detectPeople] does, by the case it falls in. *)
Lemma detectPeople_cases t v l :
  (notReady v l = true /\ detectPeople t v l = schedule FrameRequest l) \/
  (notReady v l = false /\ isPlaying v = true /\
   detectPeople t v l = schedule DetectPromise (record [DetectCalled t v] l)) \/
  (notReady v l = false /\ isPlaying v = false /\
   detectPeople t v l = schedule (TimeoutCallback (t + 500)) l).
Proof.
  unfold detectPeople. destruct (notReady v l); [by left|right].
  destruct (isPlaying v); [by left|by right].
Qed.

Lemma detectPeople_inv t v l :
  pending l = [] -> paced false None (log l) ->
  Forall playingFrame (detectCalls (log l)) ->
  (endState false None (log l)).1 = false ->
  (forall t0, (endState false None (log l)).2 = Some t0 -> t0 + 500 <= t) ->
  clock l = t ->
  loopInv (detectPeople t v l).
Proof.
  intros Hpend Hpaced Hcalls Hidle Hsince Hclock.
  destruct (detectPeople_cases t v l) as [[Hn ->]|[(Hn & Hp & ->)|(Hn & Hp & ->)]].
  - split; [done|]. split; [done|]. exists FrameRequest. simpl. rewrite Hpend.
    split; [done|]. split; [done|]. intros t0 Ht0. rewrite Hclock. by apply Hsince.
  - split; [|split].
    + simpl. apply paced_app. split; [done|]. simpl. split; [done|]. split; [|done].
      destruct (endState false None (log l)).2 as [t0|] eqn:E; [|done]. by apply Hsince.
    + simpl. rewrite detectCalls_app. apply Forall_app. split; [done|].
      apply Forall_singleton.
      apply notReady_false in Hn as [Hr _]. apply isPlaying_spec in Hp. by split.
    + exists DetectPromise. simpl. rewrite Hpend. split; [done|].
      by rewrite endState_app.
  - split; [done|]. split; [done|]. exists (TimeoutCallback (t + 500)). simpl.
    rewrite Hpend. split; [done|]. split; [done|].
    intros t0 Ht0. specialize (Hsince t0 Ht0). lia.
Qed.

Lemma startLoop_inv overlay listener t video dets canvas :
  loopInv (startLoop overlay listener t video dets canvas).
Proof. unfold startLoop. apply detectPeople_inv; try done. Qed.

Lemma detectPeople_resume_inv t v r l :
  pending l = [] -> paced false None (log l) ->
  Forall playingFrame (detectCalls (log l)) ->
  (endState false None (log l)).1 = true ->
  loopInv (detectPeople_resume t v r l).
Proof.
  intros Hpend Hpaced Hcalls Hbusy.
  set (tail := match r with
               | Resolved predictions =>
                   if hasCountListener l
                   then [CountReported (length (List.filter isPerson predictions))]
                   else []
               | Rejected _ => []
               end).
  assert (Hlog : log (detectPeople_resume t v r l) = log l ++ DetectSettled t :: tail).
  { unfold tail. destruct r as [predictions|m]; simpl.
    - rewrite <- (assoc_L (++)). done.
    - done. }
  assert (Hpending : pending (detectPeople_resume t v r l) = [TimeoutCallback (t + 500)]).
  { destruct r; simpl; by rewrite Hpend. }
  assert (Htail : paced false (Some t) tail /\
                  endState false (Some t) tail = (false, Some t) /\
                  detectCalls tail = []).
  { unfold tail. destruct r; [destruct (hasCountListener l)|]; done. }
  destruct Htail as (Htp & Hte & Htc).
  split; [|split].
  - rewrite Hlog. apply paced_app. split; [done|]. simpl. rewrite Hbusy. done.
  - rewrite Hlog, detectCalls_app.
    change (detectCalls (DetectSettled t :: tail)) with (detectCalls tail).
    by rewrite Htc, app_nil_r.
  - exists (TimeoutCallback (t + 500)). split; [done|].
    rewrite Hlog, endState_app. simpl. rewrite Hte. simpl.
    split; [done|]. intros t0 [= <-]. lia.
Qed.

Lemma fire_inv t i ev l l' :
  loopInv l -> fire t i ev l = Some l' -> loopInv l'.
Proof.
  intros (Hpaced & Hcalls & task & Hpend & Htask). unfold fire.
  destruct (Z.ltb_spec t (clock l)) as [|Hclock]; [done|].
  rewrite Hpend. destruct i as [|i]; [|done]. simpl.
  destruct task as [|due|], ev as [v| |v r]; try done.
  - intros [= <-]. destruct Htask as [Hidle Hsince].
    apply detectPeople_inv; try done.
    intros t0 Ht0. specialize (Hsince t0 Ht0). lia.
  - destruct (Z.ltb_spec t due) as [|Hdue]; [done|]. intros [= <-].
    destruct Htask as [Hidle Hsince].
    split; [done|]. split; [done|]. exists FrameRequest. split; [done|].
    simpl. split; [done|]. intros t0 Ht0. specialize (Hsince t0 Ht0). lia.
  - intros [= <-]. by apply detectPeople_resume_inv.
Qed.

Lemma fires_inv evs : forall l l',
  loopInv l -> fires evs l = Some l' -> loopInv l'.
Proof.
  induction evs as [|[[t i] ev] evs IH]; intros l l' Hinv Hrun; simpl in Hrun.
  - by injection Hrun as <-.
  - destruct (fire t i ev l) as [l1|] eqn:E; [|done].
    apply (IH l1); [|done]. by eapply fire_inv.
Qed.

(** X19.  The loop that one run of the detection effect starts, taken on
    its own.  In every state it can reach, exactly one of its callbacks is
    outstanding and the loop can go on; at most one of its calls of
    [model.detect] is unsettled, and one is exactly when that callback is
    the awaited promise; read in order, its log shows no call while
    another is unsettled and none sooner than 500 after the last one
    settled; every call was made on a decode-ready video that was neither
    paused nor ended and had a position above 0.
    A frame callback calls the model when the video is such and the canvas
    is mounted, and otherwise calls nothing and reschedules (the next
    frame when not ready, a timeout of 500 when not playing); when a call
    settles, the next frame is requested through a timeout of 500. *)
Theorem single_flight_gated_throttled overlay listener t0 video0 dets canvas evs l :
  fires evs (startLoop overlay listener t0 video0 dets canvas) = Some l ->
  (exists task, pending l = [task]) /\
  (exists t i ev l', fire t i ev l = Some l') /\
  (inFlight 0 (log l) <= 1)%nat /\
  (inFlight 0 (log l) = 1%nat <-> pending l = [DetectPromise]) /\
  paced false None (log l) /\
  Forall playingFrame (detectCalls (log l)) /\
  (forall t i v l', fire t i (FrameFires v) l = Some l' ->
     (playingFrame v /\ is_Some (canvasRef l) /\
      log l' = log l ++ [DetectCalled t v] /\ pending l' = [DetectPromise]) \/
     (~ (readyState v = 4 /\ is_Some (canvasRef l)) /\
      log l' = log l /\ pending l' = [FrameRequest]) \/
     (readyState v = 4 /\ is_Some (canvasRef l) /\ ~ playingFrame v /\
      log l' = log l /\ pending l' = [TimeoutCallback (t + 500)])) /\
  (forall t i v r l', fire t i (DetectSettles v r) l = Some l' ->
     pending l' = [TimeoutCallback (t + 500)] /\ inFlight 0 (log l') = 0%nat).
Proof.
  intros Hrun.
  assert (Hinv : loopInv l).
  { eapply fires_inv; [apply startLoop_inv|exact Hrun]. }
  destruct Hinv as (Hpaced & Hcalls & task & Hpend & Htask).
  pose proof (inFlight_paced false None (log l) Hpaced) as Hfl. simpl in Hfl.
  split_and!.
  - by exists task.
  - unfold fire. rewrite Hpend. destruct task as [|due|].
    + exists (clock l), 0%nat, (FrameFires video0). eexists.
      rewrite (proj2 (Z.ltb_ge _ _)) by lia. done.
    + exists (Z.max (clock l) due), 0%nat, TimeoutFires. eexists.
      rewrite (proj2 (Z.ltb_ge _ _)) by lia. simpl.
      rewrite (proj2 (Z.ltb_ge _ _)) by lia. done.
    + exists (clock l), 0%nat, (DetectSettles video0 (Rejected None)). eexists.
      rewrite (proj2 (Z.ltb_ge _ _)) by lia. done.
  - rewrite Hfl. destruct (endState false None (log l)).1; lia.
  - rewrite Hfl, Hpend. destruct task as [|due|]; simpl in Htask.
    + destruct Htask as [-> _]. split; done.
    + destruct Htask as [-> _]. split; done.
    + rewrite Htask. done.
  - done.
  - done.
  - intros t i v l'. unfold fire.
    destruct (Z.ltb_spec t (clock l)); [done|]. rewrite Hpend.
    destruct i as [|i]; [|done]. simpl. destruct task as [|due|]; [|done|done].
    intros [= <-]. set (rest := at_time t [] l).
    assert (Hready : notReady v rest = notReady v l) by done.
    destruct (detectPeople_cases t v rest) as [[Hn ->]|[(Hn & Hp & ->)|(Hn & Hp & ->)]];
      rewrite Hready in Hn.
    + right; left. split; [|done]. intros Hr. apply notReady_false in Hr. congruence.
    + left. apply notReady_false in Hn as [Hr Hc]. apply isPlaying_spec in Hp.
      split; [by split|]. done.
    + right; right. apply notReady_false in Hn as [Hr Hc].
      repeat split; try done. intros (_ & Hplay). apply isPlaying_spec in Hplay. congruence.
  - intros t i v r l'. unfold fire.
    destruct (Z.ltb_spec t (clock l)); [done|]. rewrite Hpend.
    destruct i as [|i]; [|done]. simpl. destruct task as [|due|]; [done|done|].
    intros [= <-]. simpl in Htask.
    assert (Hinv' : loopInv (detectPeople_resume t v r (at_time t [] l))).
    { by apply detectPeople_resume_inv. }
    destruct Hinv' as (Hpaced' & _ & task' & Hpend' & Htask').
    assert (Hp : pending (detectPeople_resume t v r (at_time t [] l))
                 = [TimeoutCallback (t + 500)]) by by destruct r.
    split; [done|].
    rewrite (inFlight_paced false None _ Hpaced'). simpl.
    rewrite Hp in Hpend'. injection Hpend' as <-. simpl in Htask'.
    destruct Htask' as [-> _]. done.
Qed.

(** Scenario A: detection is enabled on a paused video, which then plays. *)
Lemma single_flight_gated_throttled_witness :
  let stopped := mkVideo 4 true false 0 640 480 in
  let playing := mkVideo 4 false false (3 # 2) 640 480 in
  let person := mkDetection (10, 20, 100, 200)%Q "person" (9 # 10) in
  let dog := mkDetection (0, 0, 10, 10)%Q "dog" (95 # 100) in
  let evs := [(500, 0%nat, TimeoutFires); (516, 0%nat, FrameFires stopped);
              (1016, 0%nat, TimeoutFires); (1032, 0%nat, FrameFires playing);
              (1100, 0%nat, DetectSettles playing (Resolved [person; dog]));
              (1600, 0%nat, TimeoutFires); (1616, 0%nat, FrameFires playing)] in
  let start := startLoop true true 0 stopped [] (Some (mkCanvas 320 240 true [])) in
  exists l, fires evs start = Some l /\
    log l = [DetectCalled 1032 playing; DetectSettled 1100; CountReported 1;
             DetectCalled 1616 playing] /\
    pending l = [DetectPromise] /\
    inFlight 0 (log l) = 1%nat /\
    paced false None (log l).
Proof.
  intros stopped playing person dog evs start.
  destruct (fires evs start) as [l|] eqn:E; [|discriminate E].
  exists l. split; [reflexivity|].
  pose proof (single_flight_gated_throttled true true 0 stopped []
                (Some (mkCanvas 320 240 true [])) evs l E)
    as (_ & _ & _ & Hbusy & Hpaced & _).
  assert (Hlog : log l = [DetectCalled 1032 playing; DetectSettled 1100;
                          CountReported 1; DetectCalled 1616 playing]).
  { vm_compute in E. injection E as <-. reflexivity. }
  assert (Hpend : pending l = [DetectPromise]).
  { vm_compute in E. injection E as <-. reflexivity. }
  split; [exact Hlog|]. split; [exact Hpend|].
  split; [apply Hbusy; exact Hpend|exact Hpaced].
Defined.

End PeopleDetectionSpec.

(** ** The HLS error handler *)

Module VideoPlayerSpec.
Import VideoPlayer.

Lemma reloads_call c p :
  reloads (call c p) = (reloads p + if isStartLoad c then 1 else 0)%nat.
Proof.
  unfold reloads. simpl. rewrite List.filter_app, length_app. simpl.
  by destruct (isStartLoad c).
Qed.

Lemma emitErrors_destroyed errors p :
  hlsDestroyed p = true -> emitErrors errors p = p.
Proof.
  intros Hd. induction errors as [|data errors IH]; [done|].
  change (emitErrors (data :: errors) p) with (emitErrors errors (emitError p data)).
  unfold emitError. rewrite Hd. exact IH.
Qed.

(** A fatal network error that is not a 403 is answered by
    [hls.startLoad()] and by nothing else, however many came before. *)
Lemma reload_on_every_network_error errors : forall p,
  hlsDestroyed p = false ->
  Forall (fun data => fatal data = true /\ type data = NETWORK_ERROR /\
                      notForbidden data = true) errors ->
  let p' := emitErrors errors p in
  reloads p' = (reloads p + length errors)%nat /\
  error p' = error p /\ errorDetails p' = errorDetails p /\
  hlsDestroyed p' = false.
Proof.
  induction errors as [|data errors IH]; intros p Hlive Hall.
  - simpl. split_and!; try done; lia.
  - apply Forall_cons in Hall as [(Hf & Ht & Hn) Hall].
    assert (Hstep : emitError p data = call StartLoad p).
    { unfold emitError, onHlsError. by rewrite Hlive, Hf, Ht, Hn. }
    change (emitErrors (data :: errors) p) with (emitErrors errors (emitError p data)).
    rewrite Hstep.
    destruct (IH (call StartLoad p)) as (Hr & He & Hd & Hl); [by simpl; rewrite Hlive|done|].
    cbv zeta. rewrite Hr, He, Hd, Hl, reloads_call. simpl.
    split_and!; try done; lia.
Qed.

(** C1, the code at two network failures in a row.  A live stream fails
    with a fatal network error that carries no HTTP response, the reload
    fails the same way: the handler has called [hls.startLoad()] twice,
    shows no error and keeps the instance; and so it goes on for any
    number of such failures. *)
Theorem network_failure_reloads_again_and_never_fails :
  let blip := mkErrorData NETWORK_ERROR "fragLoadError" true None in
  let p := emitErrors [blip; blip] attached in
  hlsCalls p = [StartLoad; StartLoad] /\
  error p = None /\ errorDetails p = None /\ hlsDestroyed p = false /\
  forall n, let pn := emitErrors (replicate n blip) attached in
            reloads pn = n /\ error pn = None.
Proof.
  intros blip p. repeat split.
  - destruct (reload_on_every_network_error (replicate n blip) attached) as (Hr & _).
    + done.
    + apply Forall_replicate. done.
    + rewrite Hr, length_replicate. done.
  - destruct (reload_on_every_network_error (replicate n blip) attached) as (_ & He & _).
    + done.
    + apply Forall_replicate. done.
    + rewrite He. done.
Qed.

(** C2.  On an instance that is still attached, a fatal network error
    whose response code is 403 sets the error title to "Stream Access
    Error" and the detail to the fixed access-denied sentence, whatever
    text the library sent along; the only call on the instance is
    [destroy()], so no reload is started; and no later error event
    changes anything. *)
Theorem forbidden_is_terminal_without_reload data p :
  hlsDestroyed p = false ->
  fatal data = true -> type data = NETWORK_ERROR -> response data = Some (Some 403) ->
  let p' := emitError p data in
  error p' = Some "Stream Access Error" /\
  errorDetails p' =
    Some "Network error: Access denied (403 Forbidden). This stream requires authorization or is not publicly accessible." /\
  hlsCalls p' = hlsCalls p ++ [Destroy] /\
  reloads p' = reloads p /\
  hlsDestroyed p' = true /\
  (forall later, emitErrors later p' = p').
Proof.
  intros Hlive Hf Ht Hr p'.
  assert (Hp : p' = call Destroy
                      (showError "Stream Access Error"
                         "Network error: Access denied (403 Forbidden). This stream requires authorization or is not publicly accessible." p)).
  { unfold p', emitError, onHlsError, notForbidden, httpMessage.
    rewrite Hlive, Hf, Ht, Hr. reflexivity. }
  rewrite Hp. split_and!; try done.
  - rewrite reloads_call. simpl. unfold reloads. simpl. lia.
  - simpl. by rewrite orb_true_r.
  - intros later. apply emitErrors_destroyed. simpl. by rewrite orb_true_r.
Qed.

(** Scenario B: the stream answers 403. *)
Lemma forbidden_is_terminal_without_reload_witness :
  let denied := mkErrorData NETWORK_ERROR "manifestLoadError" true (Some (Some 403)) in
  let p := emitErrors [denied; denied] attached in
  error p = Some "Stream Access Error" /\
  hlsCalls p = [Destroy] /\
  reloads p = 0%nat.
Proof.
  intros denied p.
  destruct (forbidden_is_terminal_without_reload denied attached)
    as (He & _ & Hc & Hr & _ & Hterm); [reflexivity..|].
  unfold p. change (emitErrors [denied; denied] attached)
    with (emitErrors [denied] (emitError attached denied)).
  rewrite Hterm. split; [exact He|]. split; [exact Hc|exact Hr].
Defined.

End VideoPlayerSpec.

(** ** More on the App: the newest sample, the list of sources *)

Module AppMore.
Import App.

(** X1.  A count event that is accepted always ends the series: whatever
    the series was, its last sample afterwards is the event's clock
    reading and count.  On a series within capacity the event never
    shortens it: the length stays or grows by one, and stays 300 once it
    is 300. *)
Theorem accepted_event_is_newest_sample now cnt prev :
  (length prev <= 300)%nat ->
  let h := updateHistory now cnt prev in
  last h = Some (mkPoint now cnt) /\
  (length prev <= length h <= length prev + 1)%nat /\
  (length prev = 300%nat -> length h = 300%nat).
Proof.
  intros Hcap h. split; [apply AppSpec.updateHistory_last|].
  assert (Hle : (length h <= 300)%nat) by by apply AppSpec.updateHistory_length.
  assert (Hlen : (length prev <= length h <= length prev + 1)%nat).
  { unfold h. destruct (last_inv prev) as [->|(init & lp & -> & _)]; [simpl; lia|].
    rewrite AppSpec.updateHistory_snoc. destruct (within_jitter now lp).
    - rewrite !length_app. simpl. lia.
    - rewrite AppSpec.append_capped_drop, length_drop, !length_app in *. simpl in *. lia. }
  split; [done|]. lia.
Qed.

Lemma accepted_event_is_newest_sample_witness :
  let full := map (fun k => mkPoint (1000 * Z.of_nat k) 1) (seq 1 300) in
  let h := updateHistory 400000 7 full in
  last h = Some (mkPoint 400000 7) /\ length h = 300%nat.
Proof.
  intros full h.
  destruct (accepted_event_is_newest_sample 400000 7 full) as (Hlast & _ & Hfull).
  - vm_compute. lia.
  - split; [exact Hlast|]. apply Hfull. reflexivity.
Defined.

End AppMore.

Module AppSourcesSpec.
Import VideoTabs AppSources.

Lemma find_snoc {A} (f : A -> bool) (l : list A) (x : A) :
  List.find f (l ++ [x]) =
    match List.find f l with
    | Some y => Some y
    | None => if f x then Some x else None
    end.
Proof.
  induction l as [|y l IH]; simpl; [done|].
  destruct (f y); [done|exact IH].
Qed.

Lemma slugChar_class c :
  isLowerAZ (slugChar c) || isDigit (slugChar c)
    || bool_decide (slugChar c = Ascii.ascii_of_nat 95) = true.
Proof. by destruct c as [[] [] [] [] [] [] [] []]; vm_compute. Qed.

(** X2.  After [handleAddStream], looking up the new active identifier in
    the new list gives the source that was added when no source of the
    old list had that identifier, and otherwise the first old source that
    has it: the added stream is then out of reach.  The added source is
    a live stream with the given URL and an empty file name. *)
Theorem added_stream_lookup videos now name url :
  let videos' := (handleAddStream videos now name url).1 in
  let active := (handleAddStream videos now name url).2 in
  getCurrentVideoSource videos' active =
    match getCurrentVideoSource videos active with
    | Some older => Some older
    | None => Some (newStream now name url)
    end /\
  (getCurrentVideoSource videos active = None ->
     getCurrentVideoFilename videos' active = "") /\
  isHlsStream (newStream now name url) = Some true /\
  hlsUrl (newStream now name url) = Some url /\
  last videos' = Some (newStream now name url).
Proof.
  intros videos' active.
  assert (Hfind : getCurrentVideoSource videos' active =
                  match getCurrentVideoSource videos active with
                  | Some older => Some older
                  | None => Some (newStream now name url)
                  end).
  { unfold getCurrentVideoSource, videos', active. simpl. rewrite find_snoc.
    destruct (List.find _ videos); [done|]. simpl.
    by rewrite bool_decide_eq_true_2. }
  split_and!; try done.
  - intros Hnone. unfold getCurrentVideoFilename. rewrite Hfind, Hnone. done.
  - unfold videos'. simpl. by rewrite last_snoc.
Qed.

(** X3.  The name part of a stream identifier has one character for each
    character of the name, each a lower-case letter, a digit or an
    underscore. *)
Theorem slug_charset name :
  String.length (slug name) = String.length name /\
  Forall (fun c => isLowerAZ c || isDigit c
                   || bool_decide (c = Ascii.ascii_of_nat 95) = true)
         (String.list_ascii_of_string (slug name)).
Proof.
  induction name as [|c name [IHlen IHall]]; simpl.
  - split; [done|constructor].
  - split; [by rewrite IHlen|]. constructor; [apply slugChar_class|done].
Qed.

Example streamId_example :
  streamId 1730534400123 "Front Door #2" = "front_door__2_0123".
Proof. vm_compute. reflexivity. Qed.

End AppSourcesSpec.

(** ** The chart of the count series *)

Module PeopleDetectionGraphSpec.
Import App PeopleDetectionGraph.

Lemma slice_from_neg {A} (n : Z) (arr : list A) :
  0 < n -> slice_from (- n) arr = drop (length arr - Z.to_nat n) arr.
Proof.
  intros Hn. unfold slice_from.
  destruct (Z.ltb_spec (- n) 0) as [_|]; [|lia]. f_equal. lia.
Qed.

(** X4.  With a chart in place, a series that is not empty and a positive
    [maxPoints], [updateChart] shows the newest samples only: the series
    is some older samples followed by the shown ones, as many as the
    series has but at most [maxPoints], and the chart's labels and data
    are the rendered timestamps and the counts of the shown samples, in
    order.  An empty series leaves the chart as it was, and so does a
    missing chart; with [maxPoints] 0 the whole series is shown. *)
Theorem chart_shows_newest_points fmt maxPoints series c :
  (series <> [] -> 0 < maxPoints ->
   exists older shown,
     series = older ++ shown /\
     length shown = (length series `min` Z.to_nat maxPoints)%nat /\
     updateChart fmt maxPoints series (Some c) =
       Some {| labels := map (fun point => fmt (timestamp point)) shown;
               data := map count shown |}) /\
  updateChart fmt maxPoints [] (Some c) = Some c /\
  updateChart fmt maxPoints series None = None /\
  (series <> [] ->
   updateChart fmt 0 series (Some c) =
     Some {| labels := map (fun point => fmt (timestamp point)) series;
             data := map count series |}).
Proof.
  split_and!; try done.
  - intros Hne Hmax.
    exists (take (length series - Z.to_nat maxPoints) series),
           (drop (length series - Z.to_nat maxPoints) series).
    split; [by rewrite take_drop|]. split; [rewrite length_drop; lia|].
    unfold updateChart. destruct series as [|p series]; [done|].
    change (length (p :: series) =? 0)%nat with false. cbv iota.
    by rewrite slice_from_neg.
  - intros Hne. unfold updateChart. destruct series as [|p series]; [done|].
    reflexivity.
Qed.

Lemma chart_shows_newest_points_witness :
  let series := [mkPoint 1000 1; mkPoint 2000 3; mkPoint 3000 2] in
  exists older shown,
    series = older ++ shown /\ length shown = 2%nat /\
    updateChart pretty 2 series (Some (mkChart [] [])) =
      Some {| labels := map (fun point => pretty (timestamp point)) shown;
              data := map count shown |}.
Proof.
  intros series.
  destruct (chart_shows_newest_points pretty 2 series (mkChart [] []))
    as (Hshow & _).
  apply Hshow; [discriminate|lia].
Defined.

Example chart_of_three_samples :
  updateChart pretty 2 [mkPoint 1000 1; mkPoint 2000 3; mkPoint 3000 2]
    (Some (mkChart [] [])) = Some (mkChart ["2000"; "3000"] [3; 2]).
Proof. reflexivity. Qed.

End PeopleDetectionGraphSpec.

Module GraphIntervalSpec.
Import PeopleDetectionGraph.

Lemma filter_others (others : list Z) n :
  Forall (fun m => m < n) others ->
  List.filter (fun m => negb (m =? n)) (others ++ [n]) = others.
Proof.
  intros Hall. rewrite List.filter_app. simpl. rewrite Z.eqb_refl. simpl.
  rewrite app_nil_r. induction Hall as [|m others Hm Hall IH]; [done|].
  simpl. destruct (Z.eqb_spec m n); [lia|]. simpl. by rewrite IH.
Qed.

Lemma clearAllIntervals_tidy others next0 r :
  0 < next0 -> Forall (fun m => m < next0) others -> tidy others next0 r ->
  tidy others next0 (clearAllIntervals r) /\
  intervalRef (clearAllIntervals r) = None.
Proof.
  intros Hpos Hall [Hnext Href]. unfold clearAllIntervals.
  destruct (intervalRef r) as [n|] eqn:E.
  - destruct Href as [Hn Hint]. destruct (Z.eqb_spec n 0); [lia|].
    split; [|done]. split; [done|]. simpl. rewrite Hint. apply filter_others.
    eapply Forall_impl; [exact Hall|]. simpl. intros m Hm. lia.
  - split; [|done]. split; [done|]. by rewrite E.
Qed.

Lemma setupInterval_tidy others next0 isPaused r :
  0 < next0 -> Forall (fun m => m < next0) others -> tidy others next0 r ->
  let r' := setupInterval isPaused r in
  tidy others next0 r' /\
  (isPaused = false ->
     exists n, intervalRef r' = Some n /\ intervals (browser r') = others ++ [n]) /\
  (isPaused = true -> intervalRef r' = None /\ intervals (browser r') = others).
Proof.
  intros Hpos Hall Htidy r'.
  destruct (clearAllIntervals_tidy others next0 r Hpos Hall Htidy) as [[Hnext Href] Hnone].
  rewrite Hnone in Href. unfold r', setupInterval.
  set (r1 := clearAllIntervals r) in *. clearbody r1.
  destruct isPaused; cbn [negb].
  - split; [|split; [done|]].
    + split; [done|]. by rewrite Hnone.
    + intros _. by rewrite Hnone.
  - cbn [intervalRef browser intervals nextInterval]. rewrite Href.
    split; [|split; [|done]].
    + split; simpl; [lia|]. split; [lia|done].
    + intros _. by eexists.
Qed.

Lemma unmounted_tidy others next0 :
  tidy others next0 {| intervalRef := None; browser := mkBrowser others next0 |}.
Proof. split; simpl; [lia|done]. Qed.

(** X5.  On a page whose other intervals are older than the next
    identifier, which is positive: after the graph is mounted and its
    effect has run again any number of times, the page runs one interval
    of the graph, the one [intervalRef] holds, when the effect last ran
    unpaused, and none of the graph when it last ran paused; every earlier
    interval of the graph has been cleared, the intervals of others are
    untouched, and unmounting clears the last one. *)
Theorem one_interval_unless_paused others next0 p0 ps :
  0 < next0 -> Forall (fun m => m < next0) others ->
  let r := foldl depsChange (mountGraph p0 (mkBrowser others next0)) ps in
  (last (p0 :: ps) = Some false ->
     exists n, intervalRef r = Some n /\ intervals (browser r) = others ++ [n]) /\
  (last (p0 :: ps) = Some true ->
     intervalRef r = None /\ intervals (browser r) = others) /\
  intervalRef (unmountGraph r) = None /\
  intervals (browser (unmountGraph r)) = others.
Proof.
  intros Hpos Hall.
  assert (Hrun : forall ps,
            let r := foldl depsChange (mountGraph p0 (mkBrowser others next0)) ps in
            tidy others next0 r /\
            (last (p0 :: ps) = Some false ->
               exists n, intervalRef r = Some n /\ intervals (browser r) = others ++ [n]) /\
            (last (p0 :: ps) = Some true ->
               intervalRef r = None /\ intervals (browser r) = others)).
  { intros qs. induction qs as [|p qs IH] using rev_ind.
    - simpl. unfold mountGraph.
      destruct (setupInterval_tidy others next0 p0 _ Hpos Hall
                  (unmounted_tidy others next0)) as (Ht & Hf & Hp).
      split; [done|]. split; intros [= ->]; auto.
    - rewrite foldl_app. simpl. destruct IH as (Htidy & _).
      unfold depsChange at 1 2 3 4 5.
      destruct (clearAllIntervals_tidy others next0 _ Hpos Hall Htidy) as [Hc _].
      destruct (setupInterval_tidy others next0 p _ Hpos Hall Hc) as (Ht & Hf & Hp).
      change (p0 :: qs ++ [p]) with ((p0 :: qs) ++ [p]). rewrite last_snoc.
      split; [done|]. split; intros [= ->]; auto. }
  intros r. destruct (Hrun ps) as (Htidy & Hf & Hp). fold r in Htidy, Hf, Hp.
  destruct (clearAllIntervals_tidy others next0 r Hpos Hall Htidy) as [[_ Hc] Hnone].
  unfold unmountGraph. rewrite Hnone in Hc. done.
Qed.

Lemma one_interval_unless_paused_witness :
  let r := foldl depsChange (mountGraph false (mkBrowser [3; 5] 8)) [true; false; false] in
  intervalRef r = Some 10 /\ intervals (browser r) = [3; 5; 10] /\
  intervals (browser (unmountGraph r)) = [3; 5].
Proof.
  intros r.
  destruct (one_interval_unless_paused [3; 5] 8 false [true; false; false])
    as (Hrun & _ & _ & Hun).
  - lia.
  - repeat constructor.
  - split; [reflexivity|]. split; [reflexivity|exact Hun].
Defined.

End GraphIntervalSpec.

(** ** The detection effect: the loops of all its runs, and its cleanup *)

Module DetectionEffectSpec.
Import DetectionEffect.





















Lemma foldl_hold_log c tasks : forall d, log (foldl (hold c) d tasks) = log d.
Proof.
  induction tasks as [|task tasks IH]; intros d; [done|].
  simpl. rewrite IH. by destruct task.
Qed.

Lemma after_log c rest l d : log (after c rest l d) = PD.log l.
Proof. unfold after. by rewrite foldl_hold_log. Qed.

Lemma detectPeople_calls t video l :
  Forall PD.playingFrame (PD.detectCalls (PD.log l)) ->
  Forall PD.playingFrame (PD.detectCalls (PD.log (PD.detectPeople t video l))).
Proof.
  intros Hcalls.
  destruct (PeopleDetectionSpec.detectPeople_cases t video l)
    as [[Hn ->]|[(Hn & Hp & ->)|(Hn & Hp & ->)]]; [done| |done].
  simpl. rewrite PeopleDetectionSpec.detectCalls_app. apply Forall_app.
  split; [done|]. apply Forall_singleton.
  apply PeopleDetectionSpec.notReady_false in Hn as [Hready _].
  apply PeopleDetectionSpec.isPlaying_spec in Hp. by split.
Qed.

Lemma detectPeople_resume_calls t video result l :
  PD.detectCalls (PD.log (PD.detectPeople_resume t video result l)) =
  PD.detectCalls (PD.log l).
Proof.
  unfold PD.detectPeople_resume. destruct result as [predictions|message]; simpl.
  - rewrite !PeopleDetectionSpec.detectCalls_app. simpl.
    destruct (PD.hasCountListener l); simpl; by rewrite !app_nil_r.
  - rewrite PeopleDetectionSpec.detectCalls_app. simpl. by rewrite app_nil_r.
Qed.

Lemma happens_gated hs : forall d d',
  Forall PD.playingFrame (PD.detectCalls (log d)) ->
  happens hs d = Some d' ->
  Forall PD.playingFrame (PD.detectCalls (log d')).
Proof.
  induction hs as [|h hs IH]; intros d d' Hcalls; simpl; [by intros [= <-]|].
  destruct (happen d h) as [d1|] eqn:E; [|done].
  apply IH. destruct h as [t i ev| |overlay listener t video]; simpl in E.
  - unfold fire in E. destruct (t <? clock d); [done|].
    destruct (held d !! i) as [[id c|due c|c]|]; [| | |done];
      destruct ev as [video| |video result]; try done.
    + injection E as <-. rewrite after_log. by apply detectPeople_calls.
    + destruct (t <? due); [done|]. injection E as <-. by rewrite after_log.
    + injection E as <-. rewrite after_log. by rewrite detectPeople_resume_calls.
  - injection E as <-. unfold cleanup. destruct (requestRef d) as [n|]; [|done].
    by destruct (n =? 0).
  - unfold activate in E. destruct (t <? clock d); [done|]. injection E as <-.
    rewrite after_log. by apply detectPeople_calls.
Qed.

(** C7.  What the code keeps of the claim, and where it fails.  In every
    state the detection loops of the component can reach, every call of
    [model.detect] was made on a decode-ready video that was neither
    paused nor ended and had a position above 0.  Single flight is not
    kept.  Detection is enabled a second time, on a playing video, with
    the model of the first session still in the state: the effect runs at
    once and its loop calls [model.detect] at 0.  The model load that the
    same transition starts ends at 40 and sets the model again, so React
    runs the cleanup, which finds [requestRef] empty and cancels nothing,
    and then the effect body, whose loop calls [model.detect] at 40 while
    the call of 0 is unsettled.  Both loops go on: the calls settle at
    100 and 130, both timeouts run out, and the model is called at 616
    and again at 646. *)
Theorem second_effect_run_overlaps_inference :
  (forall t0 canvas next hs d,
     happens hs (mounted t0 canvas next) = Some d ->
     Forall PD.playingFrame (PD.detectCalls (log d))) /\
  let video := PD.mkVideo 4 false false 12 640 480 in
  let canvas := Some (PD.mkCanvas 640 480 true []) in
  let first := mkClosure 0 true true in
  let second := mkClosure 1 true true in
  let session := [Activates true true 0 video; CleansUp;
                  Activates true true 40 video] in
  let later := [Fires 100 0 (PD.DetectSettles video (PD.Resolved []));
                Fires 130 0 (PD.DetectSettles video (PD.Resolved []));
                Fires 600 0 PD.TimeoutFires; Fires 616 1 (PD.FrameFires video);
                Fires 630 0 PD.TimeoutFires; Fires 646 1 (PD.FrameFires video)] in
  exists d d',
    happens session (mounted 0 canvas 1) = Some d /\
    held d = [HeldDetect first; HeldDetect second] /\
    log d = [PD.DetectCalled 0 video; PD.DetectCalled 40 video] /\
    PD.inFlight 0 (log d) = 2%nat /\
    ~ PD.paced false None (log d) /\
    happens later d = Some d' /\
    held d' = [HeldDetect first; HeldDetect second] /\
    log d' = [PD.DetectCalled 0 video; PD.DetectCalled 40 video;
              PD.DetectSettled 100; PD.CountReported 0;
              PD.DetectSettled 130; PD.CountReported 0;
              PD.DetectCalled 616 video; PD.DetectCalled 646 video] /\
    PD.inFlight 0 (log d') = 2%nat.
Proof.
  split.
  - intros t0 canvas next hs d Hreach.
    eapply happens_gated; [|exact Hreach]. constructor.
  - intros video canvas first second session later.
    destruct (happens session (mounted 0 canvas 1)) as [d|] eqn:E;
      vm_compute in E; [|discriminate E].
    injection E as <-.
    eexists _, _. split; [reflexivity|].
    split_and!;
      [reflexivity|reflexivity|reflexivity| |vm_compute; reflexivity
      |reflexivity|reflexivity|reflexivity].
    cbn. intros (_ & _ & Hbusy & _). discriminate Hbusy.
Qed.



(** One [requestRef] for all loops.  The loop of the first run waits for
    its timeout when the effect runs again, at 590, on a video that is
    not ready: the new loop requests frame 1.  At 600 the timeout of the
    first loop runs out and it requests frame 2, which [requestRef] now
    holds.  A cleanup at that point cancels frame 2 only: the loop of the
    latest run, which waits for frame 1, goes on. *)
Example cleanup_misses_an_earlier_frame :
  let playing := PD.mkVideo 4 false false 12 640 480 in
  let waiting := PD.mkVideo 1 false false 12 640 480 in
  let canvas := Some (PD.mkCanvas 640 480 true []) in
  let hs := [Activates true true 0 playing;
             Fires 100 0 (PD.DetectSettles playing (PD.Resolved []));
             CleansUp;
             Activates true true 590 waiting;
             Fires 600 0 PD.TimeoutFires] in
  (held <$> happens hs (mounted 0 canvas 1)) =
    Some [HeldFrame 1 (mkClosure 1 true true); HeldFrame 2 (mkClosure 0 true true)] /\
  (requestRef <$> happens hs (mounted 0 canvas 1)) = Some (Some 2) /\
  (held ∘ cleanup <$> happens hs (mounted 0 canvas 1)) =
    Some [HeldFrame 1 (mkClosure 1 true true)] /\
  (held <$> (cleanup <$> happens hs (mounted 0 canvas 1)) ≫=
              fire 606 0 (PD.FrameFires playing)) =
    Some [HeldDetect (mkClosure 1 true true)].
Proof. vm_compute. repeat split. Qed.

End DetectionEffectSpec.

(** ** More on the detection loop and the overlay *)

Module PeopleDetectionMore.
Import PeopleDetection.

(** X7.  When [model.detect] rejects, in any state the loop of one
    activation can reach, the error is swallowed: the detections and the
    canvas stay as they were, no count is reported, the log only gains
    that the call has settled, and the loop goes on with its timeout of
    500. *)
Theorem rejected_detection_is_swallowed
    overlay listener t0 video0 dets canvas evs l t i v message l' :
  fires evs (startLoop overlay listener t0 video0 dets canvas) = Some l ->
  fire t i (DetectSettles v (Rejected message)) l = Some l' ->
  detections l' = detections l /\
  canvasRef l' = canvasRef l /\
  log l' = log l ++ [DetectSettled t] /\
  pending l' = [TimeoutCallback (t + 500)] /\
  exists l'', fire (t + 500) 0 TimeoutFires l' = Some l'' /\ pending l'' = [FrameRequest].
Proof.
  intros Hrun Hfire.
  assert (Hinv : loopInv l).
  { eapply PeopleDetectionSpec.fires_inv; [apply PeopleDetectionSpec.startLoop_inv|done]. }
  destruct Hinv as (_ & _ & task & Hpend & _). unfold fire in Hfire.
  destruct (Z.ltb_spec t (clock l)); [done|]. rewrite Hpend in Hfire.
  destruct i as [|i]; [|done]. simpl in Hfire. destruct task; try done.
  injection Hfire as <-. simpl. split_and!; try done.
  eexists. split.
  - unfold fire. simpl. rewrite (proj2 (Z.ltb_ge _ _)) by lia. simpl.
    rewrite (proj2 (Z.ltb_ge _ _)) by lia. reflexivity.
  - reflexivity.
Qed.

Lemma rejected_detection_is_swallowed_witness :
  let playing := mkVideo 4 false false (3 # 2) 640 480 in
  let person := mkDetection (10, 20, 100, 200)%Q "person" (9 # 10) in
  let canvas := Some (mkCanvas 320 240 true []) in
  let start := startLoop true true 0 playing [person] canvas in
  exists l', fire 70 0 (DetectSettles playing (Rejected (Some "out of memory"))) start = Some l' /\
    detections l' = [person] /\ canvasRef l' = canvas /\
    pending l' = [TimeoutCallback 570].
Proof.
  intros playing person canvas start.
  destruct (fire 70 0 (DetectSettles playing (Rejected (Some "out of memory"))) start)
    as [l'|] eqn:E; [|discriminate E].
  exists l'. split; [reflexivity|].
  destruct (rejected_detection_is_swallowed true true 0 playing [person] canvas []
              start 70 0%nat playing (Some "out of memory") l' eq_refl E)
    as (Hd & Hc & _ & Hp & _).
  split; [exact Hd|]. split; [exact Hc|exact Hp].
Defined.

Lemma Math_round_bounds (x : Q) (lo hi : Z) :
  (inject_Z lo < x)%Q -> (x <= inject_Z hi)%Q -> lo <= Math_round x <= hi.
Proof.
  intros Hlo Hhi. unfold Math_round. split.
  - assert (H : Qfloor (inject_Z lo) <= Qfloor (x + (1 # 2))).
    { apply Qfloor_resp_le. apply Qlt_le_weak. eapply Qlt_le_trans; [exact Hlo|].
      rewrite <- (Qplus_0_r x) at 1. apply Qplus_le_r. done. }
    by rewrite Qfloor_Z in H.
  - assert (H : (x + (1 # 2) < inject_Z (hi + 1))%Q).
    { rewrite inject_Z_plus. eapply Qle_lt_trans; [apply Qplus_le_l; exact Hhi|].
      apply Qplus_lt_r. done. }
    assert (H' : Qfloor (x + (1 # 2)) < hi + 1); [|lia].
    apply Z.lt_nge. intros Hge.
    assert (Hc : (inject_Z (hi + 1) <= x + (1 # 2))%Q).
    { eapply Qle_trans; [|apply Qfloor_le]. by rewrite <- Zle_Qle. }
    by apply Qle_not_lt in Hc.
Qed.

(** X8.  The label drawn for a detection that passes the filter and whose
    score is at most 1 reads "Person N%" with N between 50 and 100. *)
Theorem kept_detection_label_percent scaleX scaleY d :
  isPerson d = true -> (score d <= 1)%Q ->
  exists n box dot x y,
    drawOne scaleX scaleY d = [box; dot; FillText ("Person " +:+ pretty n +:+ "%") x y] /\
    50 <= n <= 100.
Proof.
  intros Hkeep Hone. apply PeopleDetectionSpec.isPerson_spec in Hkeep as [_ Hhalf].
  unfold drawOne. destruct (bbox d) as [[[x y] w] h].
  do 5 eexists. split; [reflexivity|].
  apply Math_round_bounds.
  - apply Qle_lt_trans with ((1 # 2) * 100)%Q; [done|].
    by apply Qmult_lt_compat_r.
  - apply Qle_trans with (1 * 100)%Q; [|done].
    by apply Qmult_le_compat_r.
Qed.

Lemma kept_detection_label_percent_witness :
  exists n box dot x y,
    drawOne (1 # 2) (1 # 2) (mkDetection (10, 20, 100, 200)%Q "person" (877 # 1000)) =
      [box; dot; FillText ("Person " +:+ pretty n +:+ "%") x y] /\
    50 <= n <= 100.
Proof.
  apply (kept_detection_label_percent (1 # 2) (1 # 2)
           (mkDetection (10, 20, 100, 200)%Q "person" (877 # 1000)));
    [reflexivity|]. simpl. unfold Qle. simpl. lia.
Defined.

Example label_of_a_detection :
  drawOne 1 1 (mkDetection (10, 20, 100, 200)%Q "person" (877 # 1000)) !! 2%nat =
    Some (FillText "Person 88%" (10 * 1)%Q (20 * 1 - 5)%Q).
Proof. reflexivity. Qed.

End PeopleDetectionMore.

(** ** More on the video player *)

Module VideoPlayerMoreSpec.
Import VideoPlayer VideoPlayerMore.
Import PrimFloat.

Lemma onHlsError_terminal data p :
  terminal data = true ->
  onHlsError data p = call Destroy (showError (shownTitle data) (shownDetail data) p).
Proof.
  unfold terminal, onHlsError, shownTitle, shownDetail.
  destruct (fatal data); [|done]. destruct (type data); simpl; try done.
  by destruct (notForbidden data).
Qed.

Lemma onHlsError_passing data p :
  terminal data = false ->
  onHlsError data p = p \/
  (exists c, isDestroy c = false /\ onHlsError data p = call c p).
Proof.
  unfold terminal, onHlsError.
  destruct (fatal data); [|by left]. destruct (type data); simpl; try done.
  - destruct (notForbidden data); [|done]. intros _. right. by exists StartLoad.
  - intros _. right. by exists RecoverMediaError.
Qed.

(** X9.  On an instance that carries the handler and has not been
    destroyed, in whatever state the component is, the outcome of any
    sequence of errors hls.js emits is decided by the first one the
    handler gives up on (a fatal 403 network error, or a fatal error that
    is neither a network nor a media error).  If there is none, the error
    shown is the one shown before, the instance lives, and no call made
    on it is [destroy()]; if there is one, its title and detail show, and
    [destroy()] was called once, as the last call on the instance.  Each
    event caused at most one call. *)
Theorem first_terminal_error_decides errors : forall p,
  hlsDestroyed p = false ->
  let p' := emitErrors errors p in
  match List.find terminal errors with
  | None =>
      error p' = error p /\ errorDetails p' = errorDetails p /\
      hlsDestroyed p' = false /\
      exists more, hlsCalls p' = hlsCalls p ++ more /\
                   Forall (fun c => isDestroy c = false) more /\
                   (length more <= length errors)%nat
  | Some data =>
      error p' = Some (shownTitle data) /\
      errorDetails p' = Some (shownDetail data) /\
      hlsDestroyed p' = true /\
      exists more, hlsCalls p' = hlsCalls p ++ more ++ [Destroy] /\
                   Forall (fun c => isDestroy c = false) more /\
                   (length more < length errors)%nat
  end.
Proof.
  induction errors as [|data errors IH]; intros p Hlive.
  - simpl. split_and!; try done. exists []. by rewrite app_nil_r.
  - change (emitErrors (data :: errors) p) with (emitErrors errors (emitError p data)).
    simpl. unfold emitError. rewrite Hlive.
    destruct (terminal data) eqn:Ht.
    + rewrite (onHlsError_terminal _ _ Ht).
      rewrite VideoPlayerSpec.emitErrors_destroyed by (simpl; by rewrite orb_true_r).
      simpl. rewrite orb_true_r. split_and!; try done.
      exists []. simpl. split_and!; [done|done|lia].
    + destruct (onHlsError_passing data p Ht) as [->|(c & Hc & ->)].
      * specialize (IH p Hlive). simpl in IH.
        destruct (List.find terminal errors) as [d|].
        -- destruct IH as (? & ? & ? & more & ? & ? & ?). split_and!; try done.
           exists more. split_and!; [done|done|lia].
        -- destruct IH as (? & ? & ? & more & ? & ? & ?). split_and!; try done.
           exists more. split_and!; [done|done|lia].
      * assert (Hlive' : hlsDestroyed (call c p) = false).
        { simpl. by rewrite Hlive, Hc. }
        specialize (IH (call c p) Hlive'). simpl in IH.
        destruct (List.find terminal errors) as [d|].
        -- destruct IH as (? & ? & ? & more & Hcalls & ? & ?). split_and!; try done.
           exists (c :: more). rewrite Hcalls, <- (assoc_L (++)). simpl.
           split_and!; [done|by constructor|lia].
        -- destruct IH as (? & ? & ? & more & Hcalls & ? & ?). split_and!; try done.
           exists (c :: more). rewrite Hcalls, <- (assoc_L (++)). simpl.
           split_and!; [done|by constructor|lia].
Qed.

(** A playing stream that has recovered from one media error already:
    two more media errors and a minor network error pass, the multiplexer
    error ends the stream, and the media error after it reaches no
    handler. *)
Lemma first_terminal_error_decides_witness :
  let media := mkErrorData MEDIA_ERROR "bufferStalledError" true None in
  let minor := mkErrorData NETWORK_ERROR "fragLoadError" false (Some (Some 404)) in
  let mux := mkErrorData MUX_ERROR "remuxAllocError" true (Some (Some 404)) in
  let playing := mkPlayer false false None None [RecoverMediaError] false in
  let p := emitErrors [media; minor; media; mux; media] playing in
  hlsCalls p = [RecoverMediaError; RecoverMediaError; RecoverMediaError; Destroy] /\
  error p = Some "Stream Error" /\
  errorDetails p = Some "Stream not found (404). The URL may be incorrect." /\
  hlsDestroyed p = true.
Proof.
  intros media minor mux playing p.
  pose proof (first_terminal_error_decides [media; minor; media; mux; media]
                playing eq_refl) as H.
  simpl in H. destruct H as (He & Hd & Hx & _).
  split; [reflexivity|]. split; [exact He|]. split; [exact Hd|exact Hx].
Defined.

Lemma is_nan_Prim2SF x :
  PrimFloat.is_nan x = true -> FloatOps.Prim2SF x = SpecFloat.S754_nan.
Proof.
  unfold PrimFloat.is_nan. rewrite FloatAxioms.eqb_spec. unfold SpecFloat.SFeqb.
  destruct (FloatOps.Prim2SF x) as [s|s| |s m e]; simpl; try done.
  - by destruct s.
  - rewrite Z.compare_refl, Pos.compare_cont_refl. by destruct s.
Qed.

(** [x - x] is zero or NaN, and neither is above 0.5. *)
Lemma drifted_same t : drifted t t = false.
Proof.
  unfold drifted.
  rewrite FloatAxioms.ltb_spec, FloatAxioms.abs_spec, FloatAxioms.sub_spec.
  unfold FloatAxioms.SF64sub, SpecFloat.SFsub.
  destruct (FloatOps.Prim2SF t) as [s|s| |s m e].
  - destruct s; reflexivity.
  - destruct s; reflexivity.
  - reflexivity.
  - rewrite Z.sub_diag. reflexivity.
Qed.

(** Every comparison with NaN fails. *)
Lemma drifted_nan videoTime currentTime :
  PrimFloat.is_nan videoTime = true \/ PrimFloat.is_nan currentTime = true ->
  drifted videoTime currentTime = false.
Proof.
  unfold drifted.
  rewrite FloatAxioms.ltb_spec, FloatAxioms.abs_spec, FloatAxioms.sub_spec.
  unfold FloatAxioms.SF64sub, SpecFloat.SFsub.
  intros [H|H]; apply is_nan_Prim2SF in H; rewrite H.
  - reflexivity.
  - by destruct (FloatOps.Prim2SF videoTime).
Qed.

(** X10.  The time sync assigns nothing to the position of a video that
    is not mounted, nor while the component is connecting, loading or in
    error, nor for an HLS stream.  When it assigns, the value is exactly
    the time asked for, and the distance of the video from it, as
    computed on doubles, is above 0.5; and whenever that distance is
    above 0.5 outside the cases above, it assigns.  A video that is at
    the time asked for is never touched, whatever double that is, and
    neither is one when either of the two is NaN.  An HLS source never
    reports a position; another source with a listener reports the
    position of the video as it is. *)
Theorem time_sync_seeks_only_on_drift p isHls currentTime videoTime :
  syncTime p isHls currentTime None = None /\
  (connecting p || loading p || truthy (error p) || isHls = true ->
     syncTime p isHls currentTime (Some videoTime) = None) /\
  (forall t, syncTime p isHls currentTime (Some videoTime) = Some t ->
     t = currentTime /\ drifted videoTime currentTime = true /\
     connecting p || loading p || truthy (error p) || isHls = false) /\
  (connecting p || loading p || truthy (error p) || isHls = false ->
     drifted videoTime currentTime = true ->
     syncTime p isHls currentTime (Some videoTime) = Some currentTime) /\
  syncTime p isHls currentTime (Some currentTime) = None /\
  (PrimFloat.is_nan videoTime = true \/ PrimFloat.is_nan currentTime = true ->
     syncTime p isHls currentTime (Some videoTime) = None) /\
  (isHls = true -> forall listener, handleTimeUpdate listener isHls videoTime = None) /\
  handleTimeUpdate true false videoTime = Some videoTime.
Proof.
  split_and!.
  - done.
  - intros Hskip. unfold syncTime. by rewrite Hskip.
  - intros t. unfold syncTime.
    destruct (connecting p || loading p || truthy (error p) || isHls); [done|].
    destruct (drifted videoTime currentTime); [|done]. by intros [= <-].
  - intros Hrun Hd. unfold syncTime. by rewrite Hrun, Hd.
  - unfold syncTime. rewrite drifted_same. by destruct (_ || _).
  - intros Hnan. unfold syncTime. rewrite (drifted_nan _ _ Hnan). by destruct (_ || _).
  - intros -> listener. unfold handleTimeUpdate. by rewrite andb_false_r.
  - done.
Qed.

(** A video at 0.3 is asked for 0.8: on doubles the distance is exactly
    0.5 and the video is left alone.  At 12 and asked for 12.5 it is left
    alone, asked for 30 it is moved there; while loading it is not. *)
Example time_sync_at_the_boundary :
  let playing := mkPlayer false false None None [] false in
  let loading := mkPlayer false true None None [] false in
  (syncTime playing false 0x1.999999999999ap-1 (Some 0x1.3333333333333p-2) = None /\
   syncTime playing false 12.5 (Some 12) = None /\
   syncTime playing false 30 (Some 12) = Some 30 /\
   syncTime loading false 30 (Some 12) = None /\
   syncTime playing true 30 (Some 12) = None /\
   syncTime playing false nan (Some 12) = None /\
   syncTime playing false 30 None = None)%float.
Proof. repeat split. Qed.

End VideoPlayerMoreSpec.

(** ** The form that adds a stream *)

Module AddStreamModalSpec.
Import AddStreamModal.

Lemma append_cons c s t : String c s +:+ t = String c (s +:+ t).
Proof. reflexivity. Qed.

Lemma append_nil s : "" +:+ s = s.
Proof. reflexivity. Qed.

Lemma ciPrefix_sound pat : forall s r,
  ciPrefix pat s = Some r -> exists pre, s = pre +:+ r /\ foldCases pre = pat.
Proof.
  induction pat as [|a pat IH]; intros s r H; simpl in H.
  - injection H as <-. by exists "".
  - destruct s as [|c s]; [done|]. case_bool_decide as Hc; [|done].
    destruct (IH s r H) as (pre & -> & Hpre).
    exists (String c pre). split; [done|]. simpl. by rewrite Hc, Hpre.
Qed.

Lemma ciPrefix_complete pre : forall r,
  ciPrefix (foldCases pre) (pre +:+ r) = Some r.
Proof.
  induction pre as [|c pre IH]; intros r; [done|].
  rewrite append_cons. simpl. rewrite bool_decide_eq_true_2 by done. apply IH.
Qed.

Lemma queryOk_spec q :
  queryOk q = true <->
  q = "" \/ exists q', q = "?" +:+ q' /\ noLineBreak q' = true.
Proof.
  destruct q as [|c q]; simpl.
  - split; [by left|done].
  - rewrite andb_true_iff, bool_decide_eq_true. split.
    + intros [-> Hq]. right. by exists q.
    + intros [|(q' & Heq & Hq')]; [done|].
      rewrite append_cons, append_nil in Heq. by injection Heq as -> ->.
Qed.

Lemma tailMatches_sound s : forall some,
  tailMatches some s = true ->
  exists body ext query,
    s = body +:+ ext +:+ query /\ (some = true \/ body <> "") /\
    noLineBreak body = true /\ foldCases ext = ".m3u8" /\ queryOk query = true.
Proof.
  induction s as [|c s IH]; intros some H.
  - simpl in H. rewrite orb_false_r, andb_true_iff in H. destruct H as [_ H]. done.
  - change (tailMatches some (String c s)) with
      ((some && match ciPrefix ".m3u8" (String c s) with
                | Some q => queryOk q
                | None => false
                end)
       || (negb (isLineTerminator c) && tailMatches true s)) in H.
    apply orb_true_iff in H as [H|H].
    + apply andb_true_iff in H as [-> H].
      destruct (ciPrefix ".m3u8" (String c s)) as [q|] eqn:E; [|done].
      apply ciPrefix_sound in E as (ext & Hs & Hext).
      exists "", ext, q. rewrite append_nil. split_and!; try done. by left.
    + apply andb_true_iff in H as [Hc H].
      destruct (IH true H) as (body & ext & query & -> & _ & Hb & He & Hq).
      exists (String c body), ext, query. rewrite append_cons.
      split_and!; try done.
      * by right.
      * simpl. by rewrite Hc, Hb.
Qed.

Lemma tailMatches_complete body : forall some ext query,
  (some = true \/ body <> "") -> noLineBreak body = true ->
  foldCases ext = ".m3u8" -> queryOk query = true ->
  tailMatches some (body +:+ ext +:+ query) = true.
Proof.
  induction body as [|c body IH]; intros some ext query Hsome Hb He Hq.
  - destruct Hsome as [->|]; [|done]. rewrite append_nil.
    pose proof (ciPrefix_complete ext query) as Hp. rewrite He in Hp.
    destruct (ext +:+ query) as [|c s] eqn:E.
    + simpl in Hp. done.
    + change (tailMatches true (String c s)) with
        ((true && match ciPrefix ".m3u8" (String c s) with
                  | Some q => queryOk q
                  | None => false
                  end)
         || (negb (isLineTerminator c) && tailMatches true s)).
      rewrite Hp. simpl. by rewrite Hq.
  - rewrite append_cons.
    change (tailMatches some (String c (body +:+ ext +:+ query))) with
      ((some && match ciPrefix ".m3u8" (String c (body +:+ ext +:+ query)) with
                | Some q => queryOk q
                | None => false
                end)
       || (negb (isLineTerminator c) && tailMatches true (body +:+ ext +:+ query))).
    simpl in Hb. apply andb_true_iff in Hb as [Hc Hb].
    rewrite Hc, (IH true ext query); [by rewrite orb_true_r|by left|done..].
Qed.

Lemma urlRegex_test_shape url : urlRegex_test url = true <-> urlShape url.
Proof.
  unfold urlRegex_test, urlShape. split.
  - intros H. apply orb_true_iff in H as [H|H].
    + destruct (ciPrefix "https://" url) as [rest|] eqn:E; [|done].
      apply ciPrefix_sound in E as (scheme & -> & Hs).
      apply tailMatches_sound in H as (body & ext & query & -> & Hb & Hl & He & Hq).
      exists scheme, body, ext, query. split_and!; try done.
      * by right.
      * by destruct Hb.
      * by apply queryOk_spec.
    + destruct (ciPrefix "http://" url) as [rest|] eqn:E; [|done].
      apply ciPrefix_sound in E as (scheme & -> & Hs).
      apply tailMatches_sound in H as (body & ext & query & -> & Hb & Hl & He & Hq).
      exists scheme, body, ext, query. split_and!; try done.
      * by left.
      * by destruct Hb.
      * by apply queryOk_spec.
  - intros (scheme & body & ext & query & -> & Hs & Hb & Hl & He & Hq).
    apply queryOk_spec in Hq.
    pose proof (tailMatches_complete body false ext query (or_intror Hb) Hl He Hq) as Ht.
    pose proof (ciPrefix_complete scheme (body +:+ ext +:+ query)) as Hp.
    apply orb_true_iff. destruct Hs as [Hs|Hs]; rewrite Hs in Hp.
    + right. by rewrite Hp.
    + left. by rewrite Hp.
Qed.

Lemma urlRegex_test_not_blank url : urlRegex_test url = true -> blank url = false.
Proof.
  unfold urlRegex_test. intros H.
  assert (Hh : exists c s, url = String c s /\ foldCase c = Ascii.ascii_of_nat 104).
  { apply orb_true_iff in H as [H|H].
    - destruct url as [|c s]; [done|]. simpl in H. case_bool_decide; [|done]. by eauto.
    - destruct url as [|c s]; [done|]. simpl in H. case_bool_decide; [|done]. by eauto. }
  destruct Hh as (c & s & -> & Hc). simpl.
  assert (isWhiteSpace c = false); [|by rewrite H0].
  revert Hc. by destruct c as [[] [] [] [] [] [] [] []]; vm_compute.
Qed.

(** X11.  The URL test of the form accepts exactly the strings made of a
    scheme that reads [http://] or [https://] in any case, then one or
    more characters without a line break, then the extension [.m3u8] in
    any case, then nothing or a question mark and the rest of the line. *)
Theorem url_test_accepts_exactly_the_shape url :
  urlRegex_test url = true <-> urlShape url.
Proof. apply urlRegex_test_shape. Qed.

(** Upper case and a query pass; a fragment after the extension, an empty
    host, another scheme, a line break at the end do not. *)
Example url_test_examples :
  urlRegex_test "HTTPS://Cam.Example/Live/Index.M3U8?token=a/b" = true /\
  urlRegex_test "http://a.m3u8.m3u8" = true /\
  urlRegex_test "https://cam.example/live.m3u8#t=10" = false /\
  urlRegex_test "http://.m3u8" = false /\
  urlRegex_test "ftp://cam.example/live.m3u8" = false /\
  urlRegex_test (" https://cam.example/live.m3u8") = false /\
  urlRegex_test ("https://cam.example/live.m3u8" +:+ String (Ascii.ascii_of_nat 10) "") = false.
Proof. vm_compute. repeat split. Qed.

(** X12.  [handleSubmit] calls [onAddStream] exactly when the name is not
    blank and the URL has the accepted shape; it then passes the name and
    the URL as typed, empties the form and closes it.  Otherwise it makes
    no call, leaves the modal open with the name and URL as typed, and
    shows a message.  A stream that is added has a URL that is not
    empty. *)
Theorem submit_adds_exactly_valid_streams f :
  let r := handleSubmit f in
  (blank (streamName f) = false /\ urlShape (streamUrl f) ->
     added r = Some (streamName f, streamUrl f) /\ closed r = true /\
     form r = mkForm "" "" "") /\
  (~ (blank (streamName f) = false /\ urlShape (streamUrl f)) ->
     added r = None /\ closed r = false /\
     streamName (form r) = streamName f /\ streamUrl (form r) = streamUrl f /\
     error (form r) <> "") /\
  (forall name url, added r = Some (name, url) ->
     name = streamName f /\ url = streamUrl f /\
     blank name = false /\ urlShape url /\ url <> "").
Proof.
  intros r.
  assert (Hcases :
    (blank (streamName f) = false /\ urlRegex_test (streamUrl f) = true /\
     r = {| form := mkForm "" "" ""; added := Some (streamName f, streamUrl f);
            closed := true |}) \/
    (~ (blank (streamName f) = false /\ urlRegex_test (streamUrl f) = true) /\
     exists message, message <> "" /\ r = reject message f)).
  { unfold r, handleSubmit. destruct (blank (streamName f)) eqn:Hn.
    - right. split; [by intros [? _]|]. eexists; split; [|reflexivity]; done.
    - destruct (blank (streamUrl f)) eqn:Hu.
      + right. split; [|eexists; split; [|reflexivity]; done]. intros [_ Hurl].
        apply urlRegex_test_not_blank in Hurl. congruence.
      + destruct (urlRegex_test (streamUrl f)) eqn:Ht; simpl.
        * by left.
        * right. split; [by intros [_ ?]|]. eexists; split; [|reflexivity]; done. }
  split_and!.
  - intros [Hn Hshape]. apply urlRegex_test_shape in Hshape.
    destruct Hcases as [(_ & _ & ->)|[Hno _]]; [done|]. by destruct Hno.
  - intros Hno. destruct Hcases as [(Hn & Ht & _)|(_ & message & Hm & ->)].
    + destruct Hno. split; [done|]. by apply urlRegex_test_shape.
    + done.
  - intros name url Hadded.
    destruct Hcases as [(Hn & Ht & Hr)|(_ & message & _ & Hr)]; rewrite Hr in Hadded;
      [|done].
    injection Hadded as <- <-. split_and!; try done.
    + by apply urlRegex_test_shape.
    + intros Hempty. rewrite Hempty in Ht. done.
Qed.

Lemma submit_adds_exactly_valid_streams_witness :
  let f := mkForm " Front door " "https://test-streams.mux.dev/x36xhzz/x36xhzz.m3u8" "" in
  added (handleSubmit f) =
    Some (" Front door ", "https://test-streams.mux.dev/x36xhzz/x36xhzz.m3u8") /\
  closed (handleSubmit f) = true.
Proof.
  intros f.
  destruct (submit_adds_exactly_valid_streams f) as (Hadd & _ & _).
  destruct Hadd as (Ha & Hc & _).
  - split; [reflexivity|]. apply urlRegex_test_shape. vm_compute. reflexivity.
  - split; [exact Ha|exact Hc].
Defined.

Example submit_refuses_a_fragment :
  handleSubmit (mkForm "Cam" "https://cam.example/live.m3u8#t=10" "") =
    mkSubmitted (mkForm "Cam" "https://cam.example/live.m3u8#t=10"
                   "Please enter a valid HLS URL (must end with .m3u8)") None false.
Proof. vm_compute. reflexivity. Qed.

End AddStreamModalSpec.

(** ** Addresses and error texts of the API client *)

Module ApiSpec.
Import Api.

Lemma lastSegment_no_slash s : includesSlash (lastSegment s) = false.
Proof.
  induction s as [|c s IH]; [done|]. simpl.
  destruct (includesSlash s) eqn:Hs; [done|].
  destruct (isSlash c) eqn:Hc; [done|]. simpl. by rewrite Hc, Hs.
Qed.

Lemma lastSegment_whole s : includesSlash s = false -> lastSegment s = s.
Proof.
  destruct s as [|c s]; [done|]. simpl. intros H.
  apply orb_false_iff in H as [Hc Hs]. by rewrite Hs, Hc.
Qed.

Lemma lastSegment_split s :
  includesSlash s = true -> exists dir, s = dir +:+ "/" +:+ lastSegment s.
Proof.
  induction s as [|c s IH]; [done|]. simpl. intros H.
  destruct (includesSlash s) eqn:Hs.
  - destruct (IH eq_refl) as [dir Hdir]. exists (String c dir).
    rewrite app_cons. by rewrite <- Hdir.
  - rewrite orb_false_r in H. rewrite H. exists "".
    unfold isSlash in H. apply bool_decide_eq_true in H. by subst c.
Qed.

Lemma includesSlash_app s t :
  includesSlash (s +:+ t) = includesSlash s || includesSlash t.
Proof.
  induction s as [|c s IH]; [done|]. rewrite app_cons. simpl.
  by rewrite IH, orb_assoc.
Qed.

Lemma lastSegment_app dir name :
  includesSlash name = false -> lastSegment (dir +:+ "/" +:+ name) = name.
Proof.
  intros Hname. induction dir as [|c dir IH].
  - change ("" +:+ "/" +:+ name) with (String (Ascii.ascii_of_nat 47) name).
    simpl. by rewrite Hname.
  - rewrite app_cons. simpl. rewrite includesSlash_app. simpl.
    rewrite orb_true_r. exact IH.
Qed.

(** X13.  The frame address is built from the last path segment of the
    file name: what [getFrameUrl] appends to [.../frames/] has no slash
    and is the file name itself or what follows its last slash, so a
    frame path gives the same address with or without its directories,
    and cleaning twice changes nothing. *)
Theorem frame_url_uses_last_segment filename :
  let clean := cleanFilename filename in
  getFrameUrl filename = "http://localhost:5001/api/frames/" +:+ clean /\
  includesSlash clean = false /\
  (filename = clean \/ exists dir, filename = dir +:+ "/" +:+ clean) /\
  cleanFilename clean = clean /\
  getFrameUrl clean = getFrameUrl filename /\
  (forall dir, getFrameUrl (dir +:+ "/" +:+ clean) = getFrameUrl filename).
Proof.
  intros clean.
  assert (Hno : includesSlash clean = false).
  { unfold clean, cleanFilename. destruct (includesSlash filename) eqn:E; [|done].
    apply lastSegment_no_slash. }
  assert (Hidem : cleanFilename clean = clean).
  { unfold cleanFilename at 1. by rewrite Hno. }
  split_and!; try done.
  - unfold clean, cleanFilename. destruct (includesSlash filename) eqn:E; [|by left].
    right. by apply lastSegment_split.
  - unfold getFrameUrl. by rewrite Hidem.
  - intros dir. unfold getFrameUrl. f_equal. f_equal.
    unfold cleanFilename at 1. rewrite includesSlash_app. simpl.
    rewrite orb_true_r. by apply lastSegment_app.
Qed.

Example frame_url_examples :
  getFrameUrl "frames/stream_20240101_120000.jpg" =
    "http://localhost:5001/api/frames/stream_20240101_120000.jpg" /\
  getFrameUrl "a/b/" = "http://localhost:5001/api/frames/".
Proof. vm_compute. split; reflexivity. Qed.

Lemma getVideoUrl_ordinary cache filename :
  wellCached cache -> filename ∉ objectPrototypeKeys ->
  (getVideoUrl cache filename).1 = Url ("/" +:+ filename) /\
  (getVideoUrl cache filename).2 = <[filename := "/" +:+ filename]> cache /\
  wellCached (getVideoUrl cache filename).2.
Proof.
  intros Hwf Hord. unfold getVideoUrl. rewrite bool_decide_eq_false_2 by done.
  assert (Hins : wellCached (<[filename := "/" +:+ filename]> cache)).
  { intros k v. destruct (decide (k = filename)) as [->|Hne].
    - rewrite lookup_insert_eq. by intros [= <-].
    - rewrite lookup_insert_ne by done. apply Hwf. }
  destruct (cache !! filename) as [cached|] eqn:E; [|done].
  pose proof (Hwf _ _ E) as ->.
  rewrite bool_decide_eq_false_2 by done. simpl.
  split; [done|]. split; [|done].
  by rewrite insert_id.
Qed.

Lemma getVideoUrls_ordinary filenames : forall cache,
  wellCached cache -> Forall (fun f => f ∉ objectPrototypeKeys) filenames ->
  (getVideoUrls cache filenames).1 = map (fun f => Url ("/" +:+ f)) filenames /\
  wellCached (getVideoUrls cache filenames).2 /\
  (forall k, (getVideoUrls cache filenames).2 !! k =
             if bool_decide (k ∈ filenames) then Some ("/" +:+ k) else cache !! k).
Proof.
  induction filenames as [|f fs IH]; intros cache Hwf Hall.
  - simpl. split_and!; try done.
  - apply Forall_cons in Hall as [Hf Hall]. simpl.
    destruct (getVideoUrl_ordinary cache f Hwf Hf) as (Hr & Hc & Hwf').
    destruct (getVideoUrl cache f) as [r cache1]. simpl in *. subst r cache1.
    destruct (IH _ Hwf' Hall) as (Hrs & Hwf'' & Hlook).
    destruct (getVideoUrls (<[f:="/" +:+ f]> cache) fs) as [rs cache2]. simpl in *.
    split_and!; [by rewrite Hrs|done|].
    intros k. rewrite Hlook.
    destruct (decide (k = f)) as [->|Hne].
    + rewrite lookup_insert_eq. rewrite (bool_decide_eq_true_2 (f ∈ f :: fs)) by left.
      by case_bool_decide.
    + rewrite lookup_insert_ne by done.
      case_bool_decide as H1; case_bool_decide as H2; try done.
      * destruct H2. by right.
      * apply elem_of_cons in H2 as [|]; done.
Qed.

(** X14.  Starting from the empty cache, any calls of [getVideoUrl] with
    file names that are not properties of [Object.prototype] return the
    file name behind a slash, each time, whether the name was asked for
    before or not; afterwards the cache holds exactly the names asked
    for, each with that address.  A name the prototype knows is answered
    from the prototype, and the cache is left alone. *)
Theorem video_url_is_slash_name_cached filenames :
  Forall (fun f => f ∉ objectPrototypeKeys) filenames ->
  (getVideoUrls ∅ filenames).1 = map (fun f => Url ("/" +:+ f)) filenames /\
  (forall k, (getVideoUrls ∅ filenames).2 !! k =
             if bool_decide (k ∈ filenames) then Some ("/" +:+ k) else None) /\
  (forall cache key, key ∈ objectPrototypeKeys ->
     getVideoUrl cache key = (Inherited key, cache)).
Proof.
  intros Hall.
  destruct (getVideoUrls_ordinary filenames ∅) as (Hrs & _ & Hlook); [done|done|].
  split_and!; [done| |].
  - intros k. rewrite Hlook. by rewrite lookup_empty.
  - intros cache key Hkey. unfold getVideoUrl. by rewrite bool_decide_eq_true_2.
Qed.

Lemma video_url_is_slash_name_cached_witness :
  (getVideoUrls ∅ ["football.mp4"; "gauge.mp4"; "football.mp4"]).1 =
    [Url "/football.mp4"; Url "/gauge.mp4"; Url "/football.mp4"].
Proof.
  destruct (video_url_is_slash_name_cached ["football.mp4"; "gauge.mp4"; "football.mp4"])
    as (Hrs & _).
  - apply (bool_decide_unpack _). vm_compute. exact I.
  - exact Hrs.
Defined.

Lemma nonEmpty_spec s m : nonEmpty s = Some m -> m <> "".
Proof. destruct s as [x|]; simpl; [|done]. case_bool_decide; [done|]. by intros [= <-]. Qed.

Lemma alertText_of thrown :
  thrown <> "" -> alertText thrown = "Analysis failed: " +:+ thrown +:+ ". Please try again.".
Proof. intros H. unfold alertText. by rewrite bool_decide_eq_false_2. Qed.

(** X15.  Whatever error a request ends with, the error that
    [analyzeFrame] or [analyzeStreamSnapshot] throws has a message that
    is not empty, so the alert of the App shows that message and never
    its own fallback text.  The error text of the server's answer, when
    it has one, is the message in both; an answer without one gives
    "Server error (status)" for a frame and the request's own message
    for a stream snapshot; no answer at all gives "No response from
    server" for a frame, whatever the request's own message says. *)
Theorem thrown_message_never_empty e :
  analyzeFrameError e <> "" /\
  analyzeStreamSnapshotError e <> "" /\
  alertText (analyzeFrameError e) =
    "Analysis failed: " +:+ analyzeFrameError e +:+ ". Please try again." /\
  alertText (analyzeStreamSnapshotError e) =
    "Analysis failed: " +:+ analyzeStreamSnapshotError e +:+ ". Please try again." /\
  (forall r m, response e = Some r -> dataError r = Some m -> m <> "" ->
     analyzeFrameError e = m /\ analyzeStreamSnapshotError e = m) /\
  (forall r own, response e = Some r -> nonEmpty (dataError r) = None -> status r <> 0 ->
     message e = Some own -> own <> "" ->
     analyzeFrameError e = "Server error (" +:+ pretty (status r) +:+ ")" /\
     analyzeStreamSnapshotError e = own) /\
  (response e = None -> request e = true ->
     analyzeFrameError e = "No response from server").
Proof.
  assert (Hf : analyzeFrameError e <> "").
  { unfold analyzeFrameError. destruct (response e) as [r|].
    - destruct (nonEmpty (dataError r)) as [m|] eqn:E; [by eapply nonEmpty_spec|].
      destruct (negb (status r =? 0)); [|done].
      intros H. apply (f_equal String.length) in H. by vm_compute in H.
    - destruct (request e); [done|].
      destruct (nonEmpty (message e)) as [m|] eqn:E; [by eapply nonEmpty_spec|done]. }
  assert (Hs : analyzeStreamSnapshotError e <> "").
  { unfold analyzeStreamSnapshotError.
    destruct (response e) as [r|]; [destruct (nonEmpty (dataError r)) as [m|] eqn:E|];
      try (by eapply nonEmpty_spec);
      destruct (nonEmpty (message e)) as [m'|] eqn:E'; try done;
      by eapply nonEmpty_spec. }
  split_and!; try done.
  - by apply alertText_of.
  - by apply alertText_of.
  - intros r m Hr Hd Hm. unfold analyzeFrameError, analyzeStreamSnapshotError.
    rewrite Hr, Hd. simpl. by rewrite bool_decide_eq_false_2.
  - intros r own Hr Hd Hst Hown Hne.
    unfold analyzeFrameError, analyzeStreamSnapshotError. rewrite Hr, Hd, Hown. simpl.
    rewrite (bool_decide_eq_false_2 (own = "")) by done.
    destruct (Z.eqb_spec (status r) 0); [done|]. done.
  - intros Hr Hq. unfold analyzeFrameError. by rewrite Hr, Hq.
Qed.

Lemma thrown_message_never_empty_witness :
  let e := mkRequestError (Some (mkErrorResponse None 500)) true
             (Some "Request failed with status code 500") in
  analyzeFrameError e = "Server error (500)" /\
  analyzeStreamSnapshotError e = "Request failed with status code 500".
Proof.
  intros e.
  destruct (thrown_message_never_empty e) as (_ & _ & _ & _ & _ & Hplain & _).
  apply (Hplain (mkErrorResponse None 500) "Request failed with status code 500");
    try reflexivity; try discriminate.
Defined.

End ApiSpec.

(** ** The history list *)

Module AnalysisHistorySpec.
Import AnalysisHistory.

Lemma includesUnderscore_app d r :
  includesUnderscore (d +:+ "_" +:+ r) = true.
Proof.
  induction d as [|c d IH]; [done|]. rewrite app_cons. simpl.
  by rewrite IH, orb_true_r.
Qed.

Lemma firstPart_app d r :
  includesUnderscore d = false -> firstPart (d +:+ "_" +:+ r) = d.
Proof.
  induction d as [|c d IH]; [done|]. intros H. simpl in H.
  apply orb_false_iff in H as [Hc Hd]. rewrite app_cons. cbn [firstPart].
  rewrite Hc. f_equal. by apply IH.
Qed.

Lemma afterFirst_app d r :
  includesUnderscore d = false -> afterFirst (d +:+ "_" +:+ r) = r.
Proof.
  induction d as [|c d IH]; [done|]. intros H. simpl in H.
  apply orb_false_iff in H as [Hc Hd]. rewrite app_cons. cbn [afterFirst].
  rewrite Hc. by apply IH.
Qed.

Lemma firstPart_whole t : includesUnderscore t = false -> firstPart t = t.
Proof.
  induction t as [|c t IH]; [done|]. simpl. intros H.
  apply orb_false_iff in H as [Hc Ht]. by rewrite Hc, IH.
Qed.

Lemma formatTimestamp_parts date time :
  includesUnderscore date = false -> includesUnderscore time = false ->
  formatTimestamp (date +:+ "_" +:+ time) =
    substring 0 4 date +:+ "-" +:+ substring 4 6 date +:+ "-" +:+ substring 6 8 date
      +:+ " " +:+ substring 0 2 time +:+ ":" +:+ substring 2 4 time +:+ ":" +:+
      substring 4 6 time.
Proof.
  intros Hd Ht. unfold formatTimestamp.
  rewrite includesUnderscore_app, firstPart_app, afterFirst_app by done.
  by rewrite firstPart_whole.
Qed.

Ltac explode s H :=
  repeat (destruct s as [|? s]; simpl in H; try discriminate H).

(** X16.  A timestamp without an underscore is shown as it is.  One made
    of a date of 8 characters, an underscore and a time of 6 characters
    (neither holding an underscore) is shown as 19 characters, the date
    parts joined by dashes, a space, the time parts joined by colons; two
    such timestamps that are shown alike are the same. *)
Theorem timestamp_shown_by_parts :
  (forall timestamp, includesUnderscore timestamp = false ->
     formatTimestamp timestamp = timestamp) /\
  (forall date time,
     includesUnderscore date = false -> includesUnderscore time = false ->
     String.length date = 8%nat -> String.length time = 6%nat ->
     let shown := formatTimestamp (date +:+ "_" +:+ time) in
     String.length shown = 19%nat /\
     shown = substring 0 4 date +:+ "-" +:+ substring 4 6 date +:+ "-" +:+
             substring 6 8 date +:+ " " +:+ substring 0 2 time +:+ ":" +:+
             substring 2 4 time +:+ ":" +:+ substring 4 6 time /\
     (forall date' time',
        includesUnderscore date' = false -> includesUnderscore time' = false ->
        String.length date' = 8%nat -> String.length time' = 6%nat ->
        formatTimestamp (date' +:+ "_" +:+ time') = shown ->
        date' = date /\ time' = time)).
Proof.
  split.
  - intros timestamp H. unfold formatTimestamp. by rewrite H.
  - intros date time Hd Ht Hld Hlt shown.
    assert (Hshown := formatTimestamp_parts date time Hd Ht). fold shown in Hshown.
    split; [|split; [done|]].
    + rewrite Hshown. clear Hshown shown Hd Ht.
      explode date Hld. explode time Hlt. reflexivity.
    + intros date' time' Hd' Ht' Hld' Hlt' Heq.
      rewrite formatTimestamp_parts in Heq by done. rewrite Hshown in Heq.
      clear Hshown shown Hd Ht Hd' Ht'.
      explode date Hld. explode time Hlt. explode date' Hld'. explode time' Hlt'.
      vm_compute in Heq. injection Heq as -> -> -> -> -> -> -> -> -> -> -> -> -> ->.
      done.
Qed.

Lemma timestamp_shown_by_parts_witness :
  formatTimestamp "20230915_143022" = "2023-09-15 14:30:22".
Proof.
  destruct timestamp_shown_by_parts as [_ H].
  destruct (H "20230915" "143022") as (_ & Hshown & _); try reflexivity.
Defined.

Example timestamp_without_time : formatTimestamp "2023_" = "2023-- ::".
Proof. reflexivity. Qed.

End AnalysisHistorySpec.

(** ** More invariants of the App and of the loader *)

Module AppInvariantSpec.
Import App.

Lemma step_count_agrees st ev :
  match ev with CountChange captured _ _ => captured = true | _ => True end ->
  (forall p, last (peopleCountHistory st) = Some p -> count p = peopleCount st) ->
  forall p, last (peopleCountHistory (step st ev)) = Some p ->
            count p = peopleCount (step st ev).
Proof.
  intros Hev Hinv. destruct ev as [captured now cnt|now|id]; simpl.
  - subst captured. intros p. rewrite AppSpec.updateHistory_last. by intros [= <-].
  - destruct (isPeopleDetectionEnabled st); simpl; [done|]. by intros p.
  - done.
Qed.

(** X17.  The detection effect starts its loop only in a render in which
    detection is enabled, with the count callback of that render.  When
    every count event comes through such a callback, then after any
    events on the App the count shown in the badge is the count of the
    newest sample of the series, if the series has one. *)
Theorem badge_count_is_newest_sample evs :
  capturedOn evs ->
  let st := run evs initialState in
  forall p, last (peopleCountHistory st) = Some p -> count p = peopleCount st.
Proof.
  induction evs as [|ev evs IH] using rev_ind; [by intros _ st p|].
  unfold capturedOn. intros [Hevs Hev]%Forall_app. rewrite Forall_singleton in Hev.
  unfold run in *. rewrite foldl_app. simpl.
  apply (step_count_agrees _ ev Hev). by apply IH.
Qed.

Lemma badge_count_is_newest_sample_witness :
  let st := run [CountChange true 5 9; ToggleDetection 10; CountChange true 20 2;
                 CountChange true 900 4; ToggleDetection 950] initialState in
  peopleCount st = 4 /\ last (peopleCountHistory st) = Some (mkPoint 900 4).
Proof.
  intros st. split; [|reflexivity].
  symmetry.
  apply (badge_count_is_newest_sample
           [CountChange true 5 9; ToggleDetection 10; CountChange true 20 2;
            CountChange true 900 4; ToggleDetection 950]
           ltac:(repeat constructor) (mkPoint 900 4) eq_refl).
Defined.

End AppInvariantSpec.

Module LoaderSpec.
Import PeopleDetection.

(** X18.  A load whose effect is cleaned up before its first await
    settles is discarded whatever the backends answer: the model and the
    error are as the load found and set them at its start (the model
    untouched, no error, the loading flag up), no CPU fallback is tried,
    and so the loading flag stays up until another load ends. *)
Theorem load_finished_after_cleanup_is_discarded env st :
  isMounted env AtStart = true ->
  (forall c, c <> AtStart -> isMounted env c = false) ->
  (initTensorFlowAndLoadModel env st).1 =
    {| model := model st; isLoading := true; modelLoadError := None |} /\
  cpuAttempts (initTensorFlowAndLoadModel env st).2 = 0%nat.
Proof.
  intros Hstart Hlate. unfold initTensorFlowAndLoadModel. rewrite Hstart.
  rewrite (Hlate AfterLoad), (Hlate InCatch) by done. simpl.
  by destruct (webglReady env) as [[]|m1]; [destruct (webglLoad env) as [m|m2]|].
Qed.

Lemma load_finished_after_cleanup_is_discarded_witness :
  let env := mkLoadEnv (Resolved ()) (Resolved 7%nat) (Resolved ()) (Resolved 8%nat)
               (fun c => match c with AtStart => true | _ => false end) in
  (initTensorFlowAndLoadModel env (mkLoadState None false (Some "old"))).1 =
    mkLoadState None true None.
Proof.
  intros env.
  apply (load_finished_after_cleanup_is_discarded env (mkLoadState None false (Some "old"))).
  - reflexivity.
  - by intros [].
Defined.

End LoaderSpec.
